(** * ScreenScribe: the transcription service and the capture session component

    A shallow embedding of [services/geminiService.ts] ([transcribeImage]) and of
    the [App] component of [App.tsx] (its hooks, refs, event handlers, the
    conditions under which the rendered tree offers each handler, and the
    asynchronous completions the handlers wait for), followed by the properties
    of the session state machine.

    Conventions.
    - A JavaScript [number] is an IEEE 754 binary64 value: Rocq's primitive
      [float], with the same arithmetic and comparisons.
    - A JavaScript string is a [string]; its characters stand for code units
      below 256.  [string | null] is [option string].
    - A handler is a function on the component: the calls of the state setters
      of one synchronous run are applied in program order (React commits them
      together, the last write of a hook wins), then the tree is rendered again
      and the effects run ([commit]).
    - An [await] splits a handler: the part before it is the handler proper, the
      part after it runs when the environment settles the promise, which is an
      event of its own. *)

From Stdlib Require Import PrimFloat Floats Ascii String ZArith.
From stdpp Require Import base tactics option list strings.

Open Scope string_scope.

(** ** JavaScript values *)

Module JS.

(** [!!s] for a string: the empty string is the only falsy one. *)
Definition truthy (s : string) : bool := negb (String.eqb s "").

(** [!!v] for [string | null | undefined]. *)
Definition truthy_opt (v : option string) : bool :=
  match v with
  | Some s => truthy s
  | None => false
  end.

(** White space and line terminators of ECMAScript among the code units
    below 256: TAB, LF, VT, FF, CR, SP and NBSP. *)
Definition isWhiteSpace (c : ascii) : bool :=
  let n := nat_of_ascii c in
  (Nat.eqb n 9 || Nat.eqb n 10 || Nat.eqb n 11 || Nat.eqb n 12
   || Nat.eqb n 13 || Nat.eqb n 32 || Nat.eqb n 160)%bool.

Fixpoint trimStart (s : string) : string :=
  match s with
  | String c r => if isWhiteSpace c then trimStart r else s
  | EmptyString => EmptyString
  end.

Fixpoint trimEnd (s : string) : string :=
  match s with
  | String c r =>
      let r' := trimEnd r in
      if (isWhiteSpace c && String.eqb r' "")%bool then "" else String c r'
  | EmptyString => EmptyString
  end.

(** [String.prototype.trim]. *)
Definition trim (s : string) : string := trimEnd (trimStart s).

(** The line feed of a template literal's [\n]. *)
Definition LF : string := String (ascii_of_nat 10) EmptyString.

(** [s.split(',')]: the pieces between the commas; never empty. *)
Fixpoint split_comma (s : string) : list string :=
  match s with
  | EmptyString => [EmptyString]
  | String c r =>
      if Ascii.eqb c ","%char then EmptyString :: split_comma r
      else match split_comma r with
           | p :: ps => String c p :: ps
           | [] => [String c EmptyString]
           end
  end.

(** [Math.min] of two numbers: NaN if either is, and -0 below +0. *)
Definition Math_min (a b : float) : float :=
  if (is_nan a || is_nan b)%bool then nan
  else if PrimFloat.ltb a b then a
  else if PrimFloat.ltb b a then b
  else if get_sign a then a else b.

Definition Math_abs (a : float) : float := abs a.

(** How a promise settles. *)
Inductive Settled (A E : Type) : Type :=
| Resolved (v : A)
| Rejected (e : E).
Global Arguments Resolved {A E} v.
Global Arguments Rejected {A E} e.

(** An [Error] object or a [DOMException], as far as the code reads it. *)
Record Exception : Type := mkException { name : string; message : string }.

(** [new Error(msg)]. *)
Definition new_Error (msg : string) : Exception :=
  {| name := "Error"; message := msg |}.

End JS.

(** ** services/geminiService.ts *)

Module GeminiService.
Import JS.

(** What [ai.models.generateContent] does with a request: it resolves to a
    response whose [text] is a string or undefined, or it fails. *)
Definition GenerateContent : Type := Settled (option string) Exception.

(** [transcribeImage]: the [api] argument is the way the one call of
    [generateContent] settles.  The image bytes only travel to the service. *)
Definition transcribeImage (base64ImageData : option string)
    (api : GenerateContent) : Settled string Exception :=
  match api with
  | Resolved response_text =>
      match response_text with
      | Some text =>
          if negb (truthy text) then Resolved "No text found in the image."
          else Resolved (trim text)
      | None => Resolved "No text found in the image."
      end
  | Rejected _ =>
      Rejected (new_Error "Failed to get transcription from AI service.")
  end.

End GeminiService.

(** ** types.ts *)

Module Types.

Inductive Status : Set :=
| Idle | Capturing | Streaming | Transcribing | Reviewing | Success | Error.

#[global] Instance Status_eq_dec : EqDecision Status.
Proof. solve_decision. Defined.

End Types.

(** ** App.tsx: the data of the component *)

Module App.
Import JS Types.
Export GeminiService.

(** The crop rectangle, in the coordinates of the displayed preview. *)
Module Rect.
Record t : Type := mk { x : float; y : float; width : float; height : float }.
End Rect.

(** The source rectangle of one [context.drawImage(video, sx, sy, sWidth,
    sHeight, 0, 0, sWidth, sHeight)]. *)
Record DrawImage : Type :=
  { sx : float; sy : float; sWidth : float; sHeight : float }.

(** What a [handleEndSession] function object has closed over: the values the
    hooks [transcription] and [lastScreenshot] had in the render that created
    it (its [useCallback] dependencies). *)
Record EndSessionClosure : Type :=
  { seen_transcription : string; seen_lastScreenshot : option string }.

Inductive TrackState : Set := live | ended.

Record MediaStreamTrack : Type :=
  { track_state : TrackState; onended : option EndSessionClosure }.

(** A [MediaStream] is the list of its tracks (all of them video tracks: the
    stream is asked for with [audio: false]).  Streams live in the
    environment; a reference to one is its index there. *)
Abbreviation MediaStream := (list MediaStreamTrack).

(** The mounted [<video>] element: the stream it shows and whether the effect
    has installed [oncanplay] and [onerror] on it. *)
Record HTMLVideoElement : Type :=
  { srcObject : option nat; oncanplay : bool; onerror : bool }.

(** What the element reports when a snapshot reads it. *)
Record VideoReading : Type :=
  { readyState : Z;
    videoWidth : float; videoHeight : float;
    clientWidth : float; clientHeight : float }.

(** The [useState] hooks. *)
Record Hooks : Type := mkHooks
  { lastScreenshot : option string;
    transcription : string;
    currentSnippet : string;
    status : Status;
    error : option string;
    isCopied : bool;
    isEditing : bool;
    editedTranscription : string;
    cropArea : option Rect.t;
    isSelecting : bool }.

(** The [useRef] cells ([videoContainerRef] is mounted whenever a handler
    reads it and carries no data of its own). *)
Record Refs : Type := mkRefs
  { videoRef : option HTMLVideoElement;
    streamRef : option nat;
    selectionStartPoint : option (float * float) }.

(** The environment: the streams handed out so far, the promises the
    component waits for, the canvas draws and the clipboard and timer
    callbacks outstanding. *)
Record Env : Type := mkEnv
  { streams : list MediaStream;
    pendingDisplayMedia : list EndSessionClosure;
    pendingTranscribe : list (option string);
    drawn : list DrawImage;
    pendingClipboard : nat;
    pendingTimers : nat }.

Record Component : Type := mkComponent
  { hooks : Hooks; refs : Refs; env : Env }.

Definition initial : Component :=
  {| hooks := {| lastScreenshot := None; transcription := ""; currentSnippet := "";
                 status := Idle; error := None; isCopied := false;
                 isEditing := false; editedTranscription := "";
                 cropArea := None; isSelecting := false |};
     refs := {| videoRef := None; streamRef := None; selectionStartPoint := None |};
     env := {| streams := []; pendingDisplayMedia := []; pendingTranscribe := [];
               drawn := []; pendingClipboard := 0; pendingTimers := 0 |} |}.

(** Program order: [a ;> f ;> g] runs [f] and then [g]. *)
Notation "a ;> f" := (f a) (at level 61, left associativity, only parsing).

Definition with_hooks (f : Hooks -> Hooks) (a : Component) : Component :=
  {| hooks := f (hooks a); refs := refs a; env := env a |}.
Definition with_refs (f : Refs -> Refs) (a : Component) : Component :=
  {| hooks := hooks a; refs := f (refs a); env := env a |}.
Definition with_env (f : Env -> Env) (a : Component) : Component :=
  {| hooks := hooks a; refs := refs a; env := f (env a) |}.

(** The state setters. *)
Definition setLastScreenshot (v : option string) : Component -> Component :=
  with_hooks (fun h => mkHooks v (transcription h) (currentSnippet h) (status h)
    (error h) (isCopied h) (isEditing h) (editedTranscription h) (cropArea h)
    (isSelecting h)).
Definition setTranscription (v : string) : Component -> Component :=
  with_hooks (fun h => mkHooks (lastScreenshot h) v (currentSnippet h) (status h)
    (error h) (isCopied h) (isEditing h) (editedTranscription h) (cropArea h)
    (isSelecting h)).
Definition setCurrentSnippet (v : string) : Component -> Component :=
  with_hooks (fun h => mkHooks (lastScreenshot h) (transcription h) v (status h)
    (error h) (isCopied h) (isEditing h) (editedTranscription h) (cropArea h)
    (isSelecting h)).
Definition setStatus (v : Status) : Component -> Component :=
  with_hooks (fun h => mkHooks (lastScreenshot h) (transcription h)
    (currentSnippet h) v (error h) (isCopied h) (isEditing h)
    (editedTranscription h) (cropArea h) (isSelecting h)).
Definition setError (v : option string) : Component -> Component :=
  with_hooks (fun h => mkHooks (lastScreenshot h) (transcription h)
    (currentSnippet h) (status h) v (isCopied h) (isEditing h)
    (editedTranscription h) (cropArea h) (isSelecting h)).
Definition setIsCopied (v : bool) : Component -> Component :=
  with_hooks (fun h => mkHooks (lastScreenshot h) (transcription h)
    (currentSnippet h) (status h) (error h) v (isEditing h)
    (editedTranscription h) (cropArea h) (isSelecting h)).
Definition setIsEditing (v : bool) : Component -> Component :=
  with_hooks (fun h => mkHooks (lastScreenshot h) (transcription h)
    (currentSnippet h) (status h) (error h) (isCopied h) v
    (editedTranscription h) (cropArea h) (isSelecting h)).
Definition setEditedTranscription (v : string) : Component -> Component :=
  with_hooks (fun h => mkHooks (lastScreenshot h) (transcription h)
    (currentSnippet h) (status h) (error h) (isCopied h) (isEditing h) v
    (cropArea h) (isSelecting h)).
Definition setCropArea (v : option Rect.t) : Component -> Component :=
  with_hooks (fun h => mkHooks (lastScreenshot h) (transcription h)
    (currentSnippet h) (status h) (error h) (isCopied h) (isEditing h)
    (editedTranscription h) v (isSelecting h)).
Definition setIsSelecting (v : bool) : Component -> Component :=
  with_hooks (fun h => mkHooks (lastScreenshot h) (transcription h)
    (currentSnippet h) (status h) (error h) (isCopied h) (isEditing h)
    (editedTranscription h) (cropArea h) v).

(** Assignments to the [current] field of the refs. *)
Definition set_videoRef (v : option HTMLVideoElement) : Component -> Component :=
  with_refs (fun r => mkRefs v (streamRef r) (selectionStartPoint r)).
Definition set_streamRef (v : option nat) : Component -> Component :=
  with_refs (fun r => mkRefs (videoRef r) v (selectionStartPoint r)).
Definition set_selectionStartPoint (v : option (float * float))
    : Component -> Component :=
  with_refs (fun r => mkRefs (videoRef r) (streamRef r) v).

(** Changes of the environment. *)
Definition set_streams (v : list MediaStream) : Component -> Component :=
  with_env (fun e => mkEnv v (pendingDisplayMedia e) (pendingTranscribe e)
    (drawn e) (pendingClipboard e) (pendingTimers e)).
Definition set_pendingDisplayMedia (v : list EndSessionClosure)
    : Component -> Component :=
  with_env (fun e => mkEnv (streams e) v (pendingTranscribe e) (drawn e)
    (pendingClipboard e) (pendingTimers e)).
Definition set_pendingTranscribe (v : list (option string))
    : Component -> Component :=
  with_env (fun e => mkEnv (streams e) (pendingDisplayMedia e) v (drawn e)
    (pendingClipboard e) (pendingTimers e)).
Definition set_drawn (v : list DrawImage) : Component -> Component :=
  with_env (fun e => mkEnv (streams e) (pendingDisplayMedia e)
    (pendingTranscribe e) v (pendingClipboard e) (pendingTimers e)).
Definition set_pendingClipboard (v : nat) : Component -> Component :=
  with_env (fun e => mkEnv (streams e) (pendingDisplayMedia e)
    (pendingTranscribe e) (drawn e) v (pendingTimers e)).
Definition set_pendingTimers (v : nat) : Component -> Component :=
  with_env (fun e => mkEnv (streams e) (pendingDisplayMedia e)
    (pendingTranscribe e) (drawn e) (pendingClipboard e) v).

Coercion hooks : Component >-> Hooks.
Coercion refs : Component >-> Refs.
Coercion env : Component >-> Env.

(** ** App.tsx: the handlers *)

(** [track.stop()]. *)
Definition stop (t : MediaStreamTrack) : MediaStreamTrack :=
  {| track_state := ended; onended := onended t |}.

Definition stopStream (a : Component) : Component :=
  let a :=
    match streamRef a with
    | Some i =>
        a ;> set_streams (alter (fmap stop) i (streams a)) ;> set_streamRef None
    | None => a
    end in
  match videoRef a with
  | Some _ =>
      a ;> set_videoRef
             (Some {| srcObject := None; oncanplay := false; onerror := false |})
  | None => a
  end.

Definition handleStartNewSession (a : Component) : Component :=
  a ;> stopStream
    ;> setLastScreenshot None
    ;> setTranscription ""
    ;> setCurrentSnippet ""
    ;> setStatus Idle
    ;> setError None
    ;> setIsCopied false
    ;> setCropArea None
    ;> setIsSelecting false
    ;> setIsEditing false.

(** The closure of the [handleEndSession] of the current render. *)
Definition current_closure (a : Component) : EndSessionClosure :=
  {| seen_transcription := transcription a;
     seen_lastScreenshot := lastScreenshot a |}.

(** [handleEndSession]: [transcription] and [lastScreenshot] are read from the
    closure, the stream and the video element through the refs. *)
Definition handleEndSession (cl : EndSessionClosure) (a : Component)
    : Component :=
  let a := stopStream a in
  if (truthy (seen_transcription cl) || truthy_opt (seen_lastScreenshot cl))%bool
  then a ;> setStatus Success
  else
    (* If nothing was captured, just go back to idle *)
    handleStartNewSession a.

(** [handleStartCapture] up to its [await]: the promise of [getDisplayMedia]
    is left pending together with the [handleEndSession] this function object
    refers to, which is the one of the render that is on screen when the button
    is clicked. *)
Definition handleStartCapture (a : Component) : Component :=
  let cl := current_closure a in
  a ;> setStatus Capturing
    ;> setError None
    ;> setTranscription ""
    ;> setLastScreenshot None
    ;> setCropArea None
    ;> setIsEditing false
    ;> set_pendingDisplayMedia (pendingDisplayMedia a ++ [cl]).

(** The [catch] block of [handleStartCapture]. *)
Definition handleStartCapture_catch (err : Exception) (a : Component)
    : Component :=
  if (String.eqb (name err) "NotAllowedError"
      || String.eqb (name err) "AbortError")%bool
  then handleStartNewSession a (* Go back to idle if user cancels *)
  else
    a ;> setError
           (Some "Failed to start screen capture. Please check permissions and try again.")
      ;> setStatus Error.

(** [stream.getVideoTracks()[0].onended = f]. *)
Definition set_onended (cl : EndSessionClosure) (m : MediaStream) : MediaStream :=
  match m with
  | t :: ts => {| track_state := track_state t; onended := Some cl |} :: ts
  | [] => []
  end.

(** [handleStartCapture] after its [await]: [getDisplayMedia] resolved with a
    new stream of [n] live tracks, or rejected.  A stream without a video
    track makes the assignment to [onended] throw a [TypeError] inside the
    [try]. *)
Definition handleStartCapture_settled (cl : EndSessionClosure)
    (r : Settled nat Exception) (a : Component) : Component :=
  match r with
  | Resolved n =>
      let stream := length (streams a) in
      let a :=
        a ;> set_streams
               (streams a ++ [replicate n {| track_state := live; onended := None |}])
          ;> set_streamRef (Some stream) in
      match n with
      | S _ =>
          a ;> set_streams (alter (set_onended cl) stream (streams a))
            ;> setStatus Streaming
      | O =>
          handleStartCapture_catch
            {| name := "TypeError";
               message := "Cannot set properties of undefined (setting 'onended')" |}
            a
      end
  | Rejected err => handleStartCapture_catch err a
  end.

(** The effect that attaches the stream to the video element. *)
Definition attach_stream (a : Component) : Component :=
  match status a, videoRef a, streamRef a with
  | Streaming, Some video, Some stream =>
      if bool_decide (srcObject video = Some stream) then a
      else
        a ;> set_videoRef
               (Some {| srcObject := Some stream; oncanplay := true; onerror := true |})
  | _, _, _ => a
  end.

(** [video.play()] rejected inside [oncanplay]. *)
Definition video_play_catch (a : Component) : Component :=
  a ;> setError (Some "Could not play the screen share stream.")
    ;> setStatus Error.

(** [video.onerror]. *)
Definition video_onerror (a : Component) : Component :=
  a ;> setError (Some "There was an error with the video stream.")
    ;> setStatus Error.

(** The first two lines of [handleTakeSnapshot]: the test failed. *)
Definition not_ready (a : Component) : Component :=
  a ;> setError (Some "Video stream is not ready.")
    ;> setStatus Error.

(** The source rectangle [handleTakeSnapshot] computes from the crop area. *)
Definition source_region (video : VideoReading) (crop : Rect.t) : DrawImage :=
  let scaleX := (videoWidth video / clientWidth video)%float in
  let scaleY := (videoHeight video / clientHeight video)%float in
  {| sx := (Rect.x crop * scaleX)%float;
     sy := (Rect.y crop * scaleY)%float;
     sWidth := (Rect.width crop * scaleX)%float;
     sHeight := (Rect.height crop * scaleY)%float |}.

(** [handleTakeSnapshot] up to its [await].  [video] is [videoRef.current]
    ([None] for null) and [canvas] is what the new canvas gives: [None] when
    [getContext('2d')] is null, else the result of [toDataURL] after the
    draw. *)
Definition handleTakeSnapshot (video : option VideoReading)
    (canvas : option string) (a : Component) : Component :=
  match video with
  | None => not_ready a
  | Some video =>
      if (readyState video <? 2)%Z then not_ready a
      else
        match cropArea a with
        | None =>
            (* Keep status as streaming to allow user to select *)
            a ;> setError (Some "Please select an area on the preview to capture.")
        | Some crop =>
            let a := a ;> setStatus Transcribing ;> setError None in
            let src := source_region video crop in
            if (PrimFloat.ltb (sWidth src) 1 || PrimFloat.ltb (sHeight src) 1)%bool
            then a ;> setStatus Streaming
            else
              match canvas with
              | Some dataUrl =>
                  let base64Data := split_comma dataUrl !! 1%nat in
                  a ;> set_drawn (drawn a ++ [src])
                    ;> setLastScreenshot (Some dataUrl)
                    ;> set_pendingTranscribe (pendingTranscribe a ++ [base64Data])
              | None =>
                  a ;> setError
                         (Some "Could not get canvas context to take a snapshot.")
                    ;> setStatus Error
              end
        end
  end.

(** [handleTakeSnapshot] after its [await]: [transcribeImage] settled. *)
Definition handleTakeSnapshot_settled (r : Settled string Exception)
    (a : Component) : Component :=
  match r with
  | Resolved result =>
      a ;> setCurrentSnippet result
        ;> setStatus Reviewing (* Enter review mode *)
  | Rejected _ =>
      (* We don't want to kill the session, so we go back to streaming. *)
      a ;> setError (Some "Transcription failed. Please try another snapshot.")
        ;> setStatus Streaming
  end.

Definition handleSaveAndContinue (a : Component) : Component :=
  let currentSnippet := currentSnippet a in
  a ;> setTranscription
         (let prev := transcription a in
          if truthy prev then prev ++ LF ++ LF ++ currentSnippet
          else currentSnippet)
    ;> setCurrentSnippet ""
    ;> setLastScreenshot None
    ;> setStatus Streaming.

Definition handleDiscardSnippet (a : Component) : Component :=
  a ;> setCurrentSnippet ""
    ;> setLastScreenshot None
    ;> setStatus Streaming.

(** [handleDownload] builds a link and clicks it: nothing of the component
    changes. *)
Definition handleDownload (a : Component) : Component := a.

(** [handleCopy]: the clipboard write is left pending. *)
Definition handleCopy (a : Component) : Component :=
  if negb (truthy (transcription a)) then a
  else a ;> set_pendingClipboard (S (pendingClipboard a)).

Definition handleCopy_written (a : Component) : Component :=
  a ;> setIsCopied true
    ;> set_pendingClipboard (pred (pendingClipboard a))
    ;> set_pendingTimers (S (pendingTimers a)).

Definition handleCopy_timeout (a : Component) : Component :=
  a ;> setIsCopied false
    ;> set_pendingTimers (pred (pendingTimers a)).

(** The mouse handlers.  [container] is the bounding rectangle of
    [videoContainerRef.current] as (left, top) of [getBoundingClientRect], [None] when the ref is null. *)
Definition handleMouseDown (clientX clientY : float)
    (container : option (float * float)) (a : Component) : Component :=
  match container with
  | None => a
  | Some (rect_left, rect_top) =>
      let x := (clientX - rect_left)%float in
      let y := (clientY - rect_top)%float in
      a ;> setError None (* Clear previous errors on new selection *)
        ;> setIsSelecting true
        ;> set_selectionStartPoint (Some (x, y))
        ;> setCropArea (Some (Rect.mk x y 0 0))
  end.

Definition handleMouseMove (clientX clientY : float)
    (container : option (float * float)) (a : Component) : Component :=
  match isSelecting a, selectionStartPoint a, container with
  | true, Some (startX, startY), Some (rect_left, rect_top) =>
      let currentX := (clientX - rect_left)%float in
      let currentY := (clientY - rect_top)%float in
      let newX := Math_min startX currentX in
      let newY := Math_min startY currentY in
      let newWidth := Math_abs (currentX - startX) in
      let newHeight := Math_abs (currentY - startY) in
      a ;> setCropArea (Some (Rect.mk newX newY newWidth newHeight))
  | _, _, _ => a
  end.

Definition handleMouseUp (a : Component) : Component :=
  let a' := a ;> setIsSelecting false in
  match cropArea a with
  | Some crop =>
      if (PrimFloat.ltb (Rect.width crop) 10
          || PrimFloat.ltb (Rect.height crop) 10)%bool
      then a' ;> setCropArea None (* too small to be useful *)
      else a'
  | None => a'
  end.

Definition handleMouseLeave (a : Component) : Component :=
  if isSelecting a then handleMouseUp a else a.

Definition isSessionActive (a : Component) : bool :=
  bool_decide (status a ∈ [Streaming; Transcribing; Reviewing]).

(** ** App.tsx: the rendered tree and the events *)

(** What can happen to the component: the user acts on an element the tree
    offers, or the environment settles a promise or calls a callback the
    component has handed out. *)
Inductive Event : Type :=
| ClickStartCapture
| DisplayMediaSettled (k : nat) (r : Settled nat Exception)
| TrackEnded (stream track : nat)
| VideoPlayRejected
| VideoError
| MouseDown (clientX clientY rect_left rect_top : float)
| MouseMove (clientX clientY rect_left rect_top : float)
| MouseUp
| MouseLeave
| ClickTakeSnapshot (video : VideoReading) (canvas : option string)
| TranscribeSettled (k : nat) (api : GenerateContent)
| ChangeSnippet (value : string)
| ClickSaveAndContinue
| ClickDiscard
| ClickEndSession
| ClickStartNewSession
| ClickEdit
| ChangeEdited (value : string)
| ClickCancel
| ClickSaveChanges
| ClickCopy
| ClipboardWritten
| CopiedTimeout
| ClickDownload.

(** The track [track] of the stream [stream], if there is one. *)
Definition get_track (stream track : nat) (a : Component)
    : option MediaStreamTrack :=
  match streams a !! stream with
  | Some tracks => tracks !! track
  | None => None
  end.

(** The [case] of [renderContent] shared by the four statuses that show the
    two panels. *)
Definition panels (a : Component) : bool :=
  bool_decide (status a ∈ [Streaming; Transcribing; Reviewing; Success]).

(** The last branch of the action buttons: neither reviewing nor editing. *)
Definition controls (a : Component) : bool :=
  (panels a && negb (bool_decide (status a = Reviewing)) && negb (isEditing a))%bool.

(** Whether the tree on screen offers the event (an element with that handler
    is rendered and not disabled), or the environment has the promise or the
    callback the event settles or calls. *)
Definition offered (e : Event) (a : Component) : bool :=
  match e with
  | ClickStartCapture => bool_decide (status a = Idle)
  | DisplayMediaSettled k _ => bool_decide (is_Some (pendingDisplayMedia a !! k))
  | TrackEnded stream track =>
      match get_track stream track a with
      | Some t => match track_state t with live => true | ended => false end
      | None => false
      end
  | VideoPlayRejected => from_option oncanplay false (videoRef a)
  | VideoError => from_option onerror false (videoRef a)
  | MouseDown _ _ _ _ | MouseMove _ _ _ _ | MouseUp | MouseLeave =>
      (panels a && isSessionActive a)%bool
  | ClickTakeSnapshot _ _ =>
      (controls a && isSessionActive a
       && negb (bool_decide (status a = Transcribing)
                || negb (bool_decide (is_Some (cropArea a)))))%bool
  | TranscribeSettled k _ => bool_decide (is_Some (pendingTranscribe a !! k))
  | ChangeSnippet _ | ClickSaveAndContinue | ClickDiscard =>
      (panels a && bool_decide (status a = Reviewing))%bool
  | ClickEndSession => (controls a && isSessionActive a)%bool
  | ClickStartNewSession =>
      (bool_decide (status a = Error)
       || controls a && bool_decide (status a = Success))%bool
  | ClickEdit | ClickCopy | ClickDownload =>
      (panels a && bool_decide (status a = Success)
       && truthy (transcription a) && negb (isEditing a))%bool
  | ChangeEdited _ | ClickCancel | ClickSaveChanges =>
      (panels a && negb (bool_decide (status a = Reviewing)) && isEditing a)%bool
  | ClipboardWritten => bool_decide (0 < pendingClipboard a)
  | CopiedTimeout => bool_decide (0 < pendingTimers a)
  end.

(** The reading a snapshot gets from the element: an element that shows no
    stream has nothing to play (HAVE_NOTHING). *)
Definition read_video (video : VideoReading) (a : Component)
    : option VideoReading :=
  match videoRef a with
  | Some element =>
      Some {| readyState :=
                match srcObject element with
                | Some _ => readyState video
                | None => 0
                end;
              videoWidth := videoWidth video; videoHeight := videoHeight video;
              clientWidth := clientWidth video; clientHeight := clientHeight video |}
  | None => None
  end.

(** [track.readyState] becomes "ended" when the user agent ends the track. *)
Definition end_track (stream track : nat) (a : Component) : Component :=
  a ;> set_streams
         (alter (alter (fun t => {| track_state := ended; onended := onended t |})
                   track) stream (streams a)).

(** The code that runs on an event. *)
Definition handle (e : Event) (a : Component) : Component :=
  match e with
  | ClickStartCapture => handleStartCapture a
  | DisplayMediaSettled k r =>
      match pendingDisplayMedia a !! k with
      | Some cl =>
          a ;> set_pendingDisplayMedia (delete k (pendingDisplayMedia a))
            ;> handleStartCapture_settled cl r
      | None => a
      end
  | TrackEnded stream track =>
      match get_track stream track a ≫= onended with
      | Some cl => a ;> end_track stream track ;> handleEndSession cl
      | None => a ;> end_track stream track
      end
  | VideoPlayRejected => video_play_catch a
  | VideoError => video_onerror a
  | MouseDown clientX clientY rect_left rect_top =>
      handleMouseDown clientX clientY (Some (rect_left, rect_top)) a
  | MouseMove clientX clientY rect_left rect_top =>
      handleMouseMove clientX clientY (Some (rect_left, rect_top)) a
  | MouseUp => handleMouseUp a
  | MouseLeave => handleMouseLeave a
  | ClickTakeSnapshot video canvas =>
      handleTakeSnapshot (read_video video a) canvas a
  | TranscribeSettled k api =>
      match pendingTranscribe a !! k with
      | Some base64Data =>
          a ;> set_pendingTranscribe (delete k (pendingTranscribe a))
            ;> handleTakeSnapshot_settled (transcribeImage base64Data api)
      | None => a
      end
  | ChangeSnippet value => a ;> setCurrentSnippet value
  | ClickSaveAndContinue => handleSaveAndContinue a
  | ClickDiscard => handleDiscardSnippet a
  | ClickEndSession => handleEndSession (current_closure a) a
  | ClickStartNewSession => handleStartNewSession a
  | ClickEdit =>
      a ;> setIsEditing true ;> setEditedTranscription (transcription a)
  | ChangeEdited value => a ;> setEditedTranscription value
  | ClickCancel => a ;> setIsEditing false
  | ClickSaveChanges =>
      a ;> setTranscription (editedTranscription a) ;> setIsEditing false
  | ClickCopy => handleCopy a
  | ClipboardWritten => handleCopy_written a
  | CopiedTimeout => handleCopy_timeout a
  | ClickDownload => handleDownload a
  end.

(** React commits the render that follows: the [<video>] element is in the
    tree exactly while the session is active (a new element shows no stream
    and has no handlers), and the effect with dependency [status] runs when
    the status differs from the one of the previous render. *)
Definition commit (previous : Status) (a : Component) : Component :=
  let a :=
    if isSessionActive a then
      match videoRef a with
      | Some _ => a
      | None =>
          a ;> set_videoRef
                 (Some {| srcObject := None; oncanplay := false; onerror := false |})
      end
    else a ;> set_videoRef None in
  if bool_decide (status a = previous) then a else attach_stream a.

(** One event: refused when it is not offered. *)
Definition step (e : Event) (a : Component) : option Component :=
  if offered e a then Some (commit (status a) (handle e a)) else None.

(** A sequence of events, each of them also allowed by the schedule [ok]. *)
Fixpoint run (ok : Event -> Component -> bool) (es : list Event)
    (a : Component) : option Component :=
  match es with
  | [] => Some a
  | e :: es => if ok e a then step e a ≫= run ok es else None
  end.

(** Any order of events. *)
Definition any_order (e : Event) (a : Component) : bool := true.

(** The orders in which an acquisition settles only while the status is
    Capturing, a transcription settles only while the status is Transcribing,
    and the video element reports no failure. *)
Definition in_phase (e : Event) (a : Component) : bool :=
  match e with
  | DisplayMediaSettled _ _ => bool_decide (status a = Capturing)
  | TranscribeSettled _ _ => bool_decide (status a = Transcribing)
  | VideoPlayRejected | VideoError => false
  | _ => true
  end.

(** A snippet that is not empty is under review. *)
Definition under_review (a : Component) : bool :=
  (bool_decide (status a = Reviewing) && truthy (currentSnippet a))%bool.

(** The orders in which nothing takes the status away from a snippet under
    review: while there is one, the video element reports no failure, no
    acquisition settles other than by the user's cancellation, and no
    transcription fails.  Everything else may happen at any time. *)
Definition undisturbed (e : Event) (a : Component) : bool :=
  match e with
  | VideoPlayRejected | VideoError => negb (under_review a)
  | DisplayMediaSettled _ (Resolved _) => negb (under_review a)
  | DisplayMediaSettled _ (Rejected err) =>
      (negb (under_review a)
       || String.eqb (name err) "NotAllowedError"
       || String.eqb (name err) "AbortError")%bool
  | TranscribeSettled _ (Rejected _) => negb (under_review a)
  | _ => true
  end.

(** The states some sequence of events leads to from the first render. *)
Definition reachable (a : Component) : Prop :=
  exists es, run any_order es initial = Some a.

(** ** Sessions used as examples, and the invariants *)

(** A 1280x720 stream shown at 640x360 (a 2:1 scale), with data to play. *)
Definition frame : VideoReading :=
  {| readyState := 4;
     videoWidth := 1280; videoHeight := 720;
     clientWidth := 640; clientHeight := 360 |}.

Definition png : string := "data:image/png;base64,iVBORw0KGgo=".

(** A drag from (10, 10) to (110, 90) of the preview, whose container sits at
    (100, 50) of the viewport. *)
Definition drag : list Event :=
  [MouseDown 110 60 100 50; MouseMove 210 140 100 50; MouseUp].

(** Start, share a screen with one video track, select a region. *)
Definition selecting : list Event :=
  [ClickStartCapture; DisplayMediaSettled 0 (Resolved 1)] ++ drag.

(** ... take the snapshot and get the text [text] back. *)
Definition reviewing (text : string) : list Event :=
  selecting ++ [ClickTakeSnapshot frame (Some png);
                TranscribeSettled 0 (Resolved (Some text))].

(** The state a sequence of events leads to from the first render. *)
Definition after (es : list Event) : Component :=
  default initial (run any_order es initial).

(** Reviewing the snippet "A" of a first snapshot. *)
Definition in_review : Component := Eval vm_compute in after (reviewing "A").

(** The same, when the video element failed while the transcription was in
    flight: the result arrives all the same. *)
Definition in_review_after_video_error : Component :=
  Eval vm_compute in
    after (selecting ++ [ClickTakeSnapshot frame (Some png); VideoError;
                         TranscribeSettled 0 (Resolved (Some "A"))]).

(** A first session that the video element ends with a failure, and a second
    one up to the review of the snippet "A". *)
Definition second_review : list Event :=
  selecting ++ [VideoError; ClickStartNewSession] ++ reviewing "A".

Definition in_second_review : Component :=
  Eval vm_compute in after second_review.

(** Streaming with a region selected. *)
Definition region_selected : Component := Eval vm_compute in after selecting.

(** Waiting for the transcription of a first snapshot. *)
Definition in_transcribing : Component :=
  Eval vm_compute in after (selecting ++ [ClickTakeSnapshot frame (Some png)]).

(** Waiting for the user to pick a screen. *)
Definition in_capturing : Component :=
  Eval vm_compute in after [ClickStartCapture].

(** Streaming again, with the snippet "A" saved. *)
Definition saved_A : Component :=
  Eval vm_compute in after (reviewing "A" ++ [ClickSaveAndContinue]).

(** The closure of a render in which nothing has been captured. *)
Definition nothing_captured : EndSessionClosure :=
  {| seen_transcription := ""; seen_lastScreenshot := None |}.

(** Every [handleEndSession] the environment holds (in a pending acquisition
    or in the [onended] of a track) has closed over an empty transcript and no
    screenshot. *)
Definition closures_stale (a : Component) : Prop :=
  Forall (fun cl => cl = nothing_captured) (pendingDisplayMedia a)
  /\ Forall (Forall (fun t => forall cl, onended t = Some cl -> cl = nothing_captured))
       (streams a).

(** What every reachable state satisfies. *)
Definition idle_is_clean (a : Component) : Prop :=
  (status a = Idle \/ status a = Capturing ->
     currentSnippet a = "" /\ cropArea a = None)
  /\ (status a = Idle -> transcription a = "" /\ lastScreenshot a = None)
  /\ closures_stale a.

(** What every state reached in phase satisfies besides. *)
Definition snippet_in_review (a : Component) : Prop :=
  (status a <> Reviewing -> currentSnippet a = "")
  /\ (status a = Transcribing \/ status a = Reviewing -> error a = None).

(** All tracks of the stream [i] are stopped. *)
Definition released (i : nat) (a : Component) : Prop :=
  exists tracks : list MediaStreamTrack,
    streams a !! i = Some tracks
    /\ Forall (fun t => track_state t = ended) tracks.

(** ** Further definitions: strings, sessions and invariants *)

(** Whether a string has a comma. *)
Fixpoint has_comma (s : string) : bool :=
  match s with
  | EmptyString => false
  | String c r => (Ascii.eqb c ","%char || has_comma r)%bool
  end.

(** One more snippet: a snapshot of the selected region, the text [text]
    back from the service, the snippet edited to [snippet], and the save. *)
Definition save_snippet (entry : string * string) : list Event :=
  [ClickTakeSnapshot frame (Some png);
   TranscribeSettled 0 (Resolved (Some (fst entry)));
   ChangeSnippet (snd entry);
   ClickSaveAndContinue].

(** The transcript after one more save, as [handleSaveAndContinue] has it. *)
Definition with_snippet (prev snippet : string) : string :=
  if truthy prev then prev ++ LF ++ LF ++ snippet else snippet.

(** Streaming with the region of the examples selected, the transcript [t]
    and the draws [d] so far. *)
Definition streaming_with (t : string) (d : list DrawImage) : Component :=
  region_selected ;> setTranscription t ;> set_drawn d.


(** What the hooks of every reachable state satisfy besides: the idle state
    shows no error, edits nothing and selects nothing; a crop area has no
    negative side; and once the drag is over no side is below 10. *)
Definition hooks_tidy (a : Component) : Prop :=
  (status a = Idle ->
     error a = None /\ isEditing a = false /\ isSelecting a = false)
  /\ (forall c, cropArea a = Some c ->
        PrimFloat.ltb (Rect.width c) 0 = false
        /\ PrimFloat.ltb (Rect.height c) 0 = false)
  /\ (isSelecting a = false -> forall c, cropArea a = Some c ->
        PrimFloat.ltb (Rect.width c) 10 = false
        /\ PrimFloat.ltb (Rect.height c) 10 = false).

(** The Copied indicator is on only while a timeout that clears it is set. *)
Definition copy_tidy (a : Component) : Prop :=
  isCopied a = true -> 0 < pendingTimers a.

(** No stream is held outside a session, and a stream that is held is one the
    environment has handed out. *)
Definition stream_tidy (a : Component) : Prop :=
  (status a = Idle \/ status a = Capturing \/ status a = Success ->
     streamRef a = None)
  /\ (forall i, streamRef a = Some i -> i < length (streams a)).

(** Every stream but the one held has all its tracks stopped. *)
Definition others_released (a : Component) : Prop :=
  forall j (m : list MediaStreamTrack),
    streams a !! j = Some m -> streamRef a <> Some j ->
    Forall (fun t => track_state t = ended) m.

(** The phases that wait have something to wait for, and the phases that
    show a snapshot have one. *)
Definition in_flight (a : Component) : Prop :=
  (status a = Capturing -> pendingDisplayMedia a <> [])
  /\ (status a = Transcribing ->
        pendingTranscribe a <> [] /\ is_Some (lastScreenshot a))
  /\ (status a = Reviewing -> is_Some (lastScreenshot a)).

(** The draft is open only in Success. *)
Definition editing_in_success (a : Component) : Prop :=
  isEditing a = true -> status a = Success.

(** The invariants of every reachable state, and those of the states reached
    in phase. *)
Definition reachable_inv (a : Component) : Prop :=
  idle_is_clean a /\ hooks_tidy a /\ copy_tidy a /\ stream_tidy a.

Definition in_phase_inv (a : Component) : Prop :=
  reachable_inv a /\ snippet_in_review a /\ others_released a /\ in_flight a
  /\ editing_in_success a.

(** The transitions of the session: which status an event can lead to from
    which. *)
Definition transition (e : Event) (from to : Status) : bool :=
  match e with
  | ClickStartCapture =>
      bool_decide (from = Idle /\ to = Capturing)
  | DisplayMediaSettled _ (Resolved (S _)) =>
      bool_decide (from = Capturing /\ to = Streaming)
  | DisplayMediaSettled _ (Resolved O) =>
      bool_decide (from = Capturing /\ to = Error)
  | DisplayMediaSettled _ (Rejected err) =>
      bool_decide (from = Capturing
                   /\ to = if (String.eqb (name err) "NotAllowedError"
                               || String.eqb (name err) "AbortError")%bool
                           then Idle else Error)
  | TrackEnded _ _ =>
      bool_decide (from ∈ [Streaming; Transcribing; Reviewing; Error]
                   /\ (to = from \/ to = Idle))
  | VideoPlayRejected | VideoError => false
  | MouseDown _ _ _ _ | MouseMove _ _ _ _ | MouseUp | MouseLeave =>
      bool_decide (from ∈ [Streaming; Transcribing; Reviewing] /\ to = from)
  | ClickTakeSnapshot _ _ =>
      bool_decide (from = Streaming /\ to ∈ [Streaming; Transcribing; Error])
  | TranscribeSettled _ (Resolved _) =>
      bool_decide (from = Transcribing /\ to = Reviewing)
  | TranscribeSettled _ (Rejected _) =>
      bool_decide (from = Transcribing /\ to = Streaming)
  | ChangeSnippet _ =>
      bool_decide (from = Reviewing /\ to = Reviewing)
  | ClickSaveAndContinue | ClickDiscard =>
      bool_decide (from = Reviewing /\ to = Streaming)
  | ClickEndSession =>
      bool_decide (from ∈ [Streaming; Transcribing] /\ to ∈ [Success; Idle])
  | ClickStartNewSession =>
      bool_decide (from ∈ [Error; Success] /\ to = Idle)
  | ClickEdit | ChangeEdited _ | ClickCancel | ClickSaveChanges
  | ClickCopy | ClickDownload =>
      bool_decide (from = Success /\ to = Success)
  | ClipboardWritten | CopiedTimeout =>
      bool_decide (to = from)
  end.

(** The session ended with the snippet "A" saved. *)
Definition in_success : Component :=
  Eval vm_compute in
    after (reviewing "A" ++ [ClickSaveAndContinue; ClickEndSession]).

(** ... and the transcript copied. *)
Definition copied : Component :=
  Eval vm_compute in
    after (reviewing "A"
           ++ [ClickSaveAndContinue; ClickEndSession; ClickCopy; ClipboardWritten]).

(** ... and a new session asked for. *)
Definition idle_again : Component :=
  Eval vm_compute in
    after (reviewing "A"
           ++ [ClickSaveAndContinue; ClickEndSession; ClickStartNewSession]).

(** While the session is active the preview element shows the stream that is
    held and has its handlers; otherwise there is no preview element. *)
Definition preview_bound (a : Component) : Prop :=
  if isSessionActive a
  then exists i,
         streamRef a = Some i
         /\ videoRef a
            = Some {| srcObject := Some i; oncanplay := true; onerror := true |}
  else videoRef a = None.

(** A mouse move at a position (clientX, clientY) over a container at
    (left, top). *)
Definition move (p : float * float * float * float) : Event :=
  let '(clientX, clientY, rect_left, rect_top) := p in
  MouseMove clientX clientY rect_left rect_top.

(** ** Basic facts *)

Lemma panels_unfold (a : Component) :
  panels a = match status a with
             | Streaming | Transcribing | Reviewing | Success => true
             | _ => false
             end.
Proof. unfold panels. destruct (status a); reflexivity. Qed.

Lemma isSessionActive_unfold (a : Component) :
  isSessionActive a = match status a with
                      | Streaming | Transcribing | Reviewing => true
                      | _ => false
                      end.
Proof. unfold isSessionActive. destruct (status a); reflexivity. Qed.

(** The commit touches the video element only. *)
Lemma attach_stream_hooks (a : Component) : hooks (attach_stream a) = hooks a.
Proof. unfold attach_stream. repeat case_match; reflexivity. Qed.

Lemma attach_stream_env (a : Component) : env (attach_stream a) = env a.
Proof. unfold attach_stream. repeat case_match; reflexivity. Qed.

Lemma commit_hooks (p : Status) (a : Component) : hooks (commit p a) = hooks a.
Proof.
  unfold commit. repeat case_match; rewrite ?attach_stream_hooks; reflexivity.
Qed.

Lemma commit_env (p : Status) (a : Component) : env (commit p a) = env a.
Proof.
  unfold commit. repeat case_match; rewrite ?attach_stream_env; reflexivity.
Qed.

Lemma commit_streamRef (p : Status) (a : Component) :
  streamRef (commit p a) = streamRef a.
Proof. unfold commit, attach_stream. repeat case_match; cbn; congruence. Qed.

Lemma step_Some (e : Event) (a a' : Component) :
  step e a = Some a' <->
  offered e a = true /\ a' = commit (status a) (handle e a).
Proof.
  unfold step. destruct (offered e a); split.
  - intros [= <-]. auto.
  - intros [_ ->]. reflexivity.
  - discriminate.
  - intros [[=] _].
Qed.

(** [stopStream] and the reset. *)
Lemma stopStream_hooks (a : Component) : hooks (stopStream a) = hooks a.
Proof. unfold stopStream. repeat case_match; reflexivity. Qed.

Lemma stopStream_streamRef (a : Component) : streamRef (stopStream a) = None.
Proof. unfold stopStream. repeat case_match; cbn; congruence. Qed.

Lemma stopStream_released (a : Component) (i : nat) :
  streamRef a = Some i -> i < length (streams a) -> released i (stopStream a).
Proof.
  intros Hi Hlt. destruct (lookup_lt_is_Some_2 (streams a) i Hlt) as [m Hm].
  exists (stop <$> m). split.
  - unfold stopStream. rewrite Hi.
    case_match; cbn; rewrite list_lookup_alter_eq, Hm; reflexivity.
  - apply Forall_fmap, Forall_true. reflexivity.
Qed.

Lemma handleStartNewSession_hooks (a : Component) :
  hooks (handleStartNewSession a)
  = mkHooks None "" "" Idle None false false (editedTranscription a) None false.
Proof.
  unfold handleStartNewSession. cbn. rewrite stopStream_hooks. reflexivity.
Qed.

Lemma handleStartNewSession_streamRef (a : Component) :
  streamRef (handleStartNewSession a) = None.
Proof. apply stopStream_streamRef. Qed.

(** The example states are reached, each by a run in phase. *)
Lemma in_capturing_reached :
  run in_phase [ClickStartCapture] initial = Some in_capturing.
Proof. vm_compute. reflexivity. Qed.

Lemma region_selected_reached :
  run in_phase selecting initial = Some region_selected.
Proof. vm_compute. reflexivity. Qed.

Lemma in_transcribing_reached :
  run in_phase (selecting ++ [ClickTakeSnapshot frame (Some png)]) initial
  = Some in_transcribing.
Proof. vm_compute. reflexivity. Qed.

Lemma in_review_reached :
  run in_phase (reviewing "A") initial = Some in_review.
Proof. vm_compute. reflexivity. Qed.

Lemma saved_A_reached :
  run in_phase (reviewing "A" ++ [ClickSaveAndContinue]) initial = Some saved_A.
Proof. vm_compute. reflexivity. Qed.

(** ** The transcription service *)

Lemma transcribeImage_rejects (b : option string) (e : Exception) :
  transcribeImage b (Rejected e)
  = Rejected (new_Error "Failed to get transcription from AI service.").
Proof. reflexivity. Qed.

Lemma transcribeImage_rejected_iff (b : option string) (api : GenerateContent)
    (e : Exception) :
  transcribeImage b api = Rejected e <->
  (exists e0, api = Rejected e0)
  /\ e = new_Error "Failed to get transcription from AI service.".
Proof.
  unfold transcribeImage. split.
  - repeat case_match; intros [=]; subst; eauto.
  - intros [[e0 ->] ->]. reflexivity.
Qed.

Lemma transcribeImage_no_text (b : option string) (text : option string) :
  truthy_opt text = false ->
  transcribeImage b (Resolved text) = Resolved "No text found in the image.".
Proof. destruct text as [t|]; cbn; [intros ->|]; reflexivity. Qed.

Lemma trimStart_blank (s : string) :
  Forall (fun c => isWhiteSpace c = true) (list_ascii_of_string s) ->
  trimStart s = "".
Proof.
  induction s as [|c s IH]; cbn; [reflexivity|].
  intros H. apply Forall_cons in H as [-> H]. auto.
Qed.

(** The service resolves to the empty string exactly on a text that is not
    empty and is trimmed away. *)
Lemma transcribeImage_empty_iff (b : option string) (api : GenerateContent) :
  transcribeImage b api = Resolved "" <->
  exists text, api = Resolved (Some text) /\ text <> "" /\ trim text = "".
Proof.
  unfold transcribeImage, truthy. split.
  - destruct api as [[text|]|]; try discriminate.
    destruct (String.eqb_spec text ""); cbn; [discriminate|].
    intros [= H]. eauto.
  - intros (text & -> & Hne & Htrim).
    destruct (String.eqb_spec text ""); [contradiction|]. cbn. congruence.
Qed.

(** A text of white space only is trimmed to the empty string. *)
Lemma transcribeImage_blank (b : option string) (text : string) :
  text <> "" ->
  Forall (fun c => isWhiteSpace c = true) (list_ascii_of_string text) ->
  transcribeImage b (Resolved (Some text)) = Resolved "".
Proof.
  intros Hne Hws. apply transcribeImage_empty_iff.
  exists text. repeat split; [assumption|].
  unfold trim. rewrite trimStart_blank by assumption. reflexivity.
Qed.

(** C5, at the input that fails: when the model answers with a single space
    (or with a line feed), [transcribeImage] resolves to the empty string and
    not to the placeholder, which is given only for a text that is empty
    before it is trimmed. *)
Theorem transcribeImage_blank_text_resolves_empty (b : option string) :
  transcribeImage b (Resolved (Some " ")) = Resolved ""
  /\ transcribeImage b (Resolved (Some LF)) = Resolved ""
  /\ transcribeImage b (Resolved (Some "")) = Resolved "No text found in the image."
  /\ transcribeImage b (Resolved None) = Resolved "No text found in the image.".
Proof. repeat split. Qed.

(** ** Review: discard and save *)

(** C9: a discard in Reviewing is offered and leaves the accumulated
    transcript as it was, clears the snippet and the screenshot, and returns
    to Streaming. *)
Theorem discard_keeps_transcript (a : Component) :
  status a = Reviewing ->
  exists a',
    step ClickDiscard a = Some a'
    /\ transcription a' = transcription a
    /\ currentSnippet a' = ""
    /\ lastScreenshot a' = None
    /\ status a' = Streaming.
Proof.
  intros H. unfold step, offered. rewrite panels_unfold, H. cbn.
  eexists; split; [reflexivity|]. rewrite commit_hooks. repeat split.
Qed.

Lemma discard_keeps_transcript_witness :
  status in_review = Reviewing
  /\ exists a',
       step ClickDiscard in_review = Some a'
       /\ transcription a' = transcription in_review
       /\ currentSnippet a' = ""
       /\ lastScreenshot a' = None
       /\ status a' = Streaming.
Proof. split; [reflexivity | apply discard_keeps_transcript; reflexivity]. Defined.

(** C4, as the code has it: a save in Reviewing is offered; it sets the
    transcript to the snippet when the transcript is empty and else appends a
    blank line and the snippet; it clears the snippet and the screenshot,
    leaves the error as it was, and returns to Streaming.  Saving "A" on an
    empty transcript and then "B" gives "A", a blank line, "B". *)
Theorem save_appends_snippet (a : Component) :
  status a = Reviewing ->
  exists a',
    step ClickSaveAndContinue a = Some a'
    /\ transcription a'
       = (if decide (transcription a = "") then currentSnippet a
          else transcription a ++ LF ++ LF ++ currentSnippet a)
    /\ currentSnippet a' = ""
    /\ lastScreenshot a' = None
    /\ error a' = error a
    /\ status a' = Streaming
    /\ (transcription a = "" -> currentSnippet a = "A" ->
        forall b : Component,
          status b = Reviewing -> transcription b = transcription a' ->
                  currentSnippet b = "B" ->
        exists b', step ClickSaveAndContinue b = Some b'
                   /\ transcription b' = "A" ++ LF ++ LF ++ "B").
Proof.
  intros H. unfold step, offered. rewrite panels_unfold, H. cbn.
  eexists; split; [reflexivity|]. rewrite commit_hooks.
  repeat split.
  - cbn. unfold truthy. case_decide as Ht.
    + rewrite Ht. reflexivity.
    + destruct (String.eqb_spec (transcription a) ""); [contradiction|reflexivity].
  - intros Ht Hs b Hb Htb Hsb. rewrite panels_unfold, Hb. cbn.
    eexists; split; [reflexivity|]. rewrite commit_hooks. cbn.
    rewrite Htb, Hsb. cbn. rewrite Ht, Hs. reflexivity.
Qed.

Lemma save_appends_snippet_witness :
  status in_review = Reviewing
  /\ exists a',
       step ClickSaveAndContinue in_review = Some a'
       /\ transcription a' = "A"
       /\ currentSnippet a' = ""
       /\ lastScreenshot a' = None
       /\ error a' = None
       /\ status a' = Streaming.
Proof.
  split; [reflexivity|].
  destruct (save_appends_snippet in_review eq_refl)
    as (a' & Hstep & Ht & Hs & Hl & He & Hst & _).
  exists a'. repeat split; assumption.
Defined.

(** C4 as stated fails: a review entered after the video element failed
    during the transcription shows the error of that failure, and the save
    leaves it in place. *)
Lemma save_keeps_error :
  run any_order
    (selecting ++ [ClickTakeSnapshot frame (Some png); VideoError;
                   TranscribeSettled 0 (Resolved (Some "A"))]) initial
  = Some in_review_after_video_error
  /\ status in_review_after_video_error = Reviewing
  /\ exists a',
       step ClickSaveAndContinue in_review_after_video_error = Some a'
       /\ status a' = Streaming
       /\ error a' = Some "There was an error with the video stream.".
Proof.
  split; [vm_compute; reflexivity|]. split; [reflexivity|].
  eexists. split; [vm_compute; reflexivity|]. split; reflexivity.
Qed.

(** The whole scenario of two saves, run from the first render. *)
Example save_A_then_B :
  exists a,
    run in_phase
      (reviewing "A" ++ [ClickSaveAndContinue] ++ drag
       ++ [ClickTakeSnapshot frame (Some png);
           TranscribeSettled 0 (Resolved (Some "B")); ClickSaveAndContinue])
      initial = Some a
    /\ transcription a = "A" ++ LF ++ LF ++ "B"
    /\ status a = Streaming.
Proof. eexists. split; [vm_compute; reflexivity|]. split; reflexivity. Qed.

(** ** Taking a snapshot *)

(** C10: when the video element is absent or its [readyState] is below 2, the
    snapshot sets the status to Error with the message "Video stream is not
    ready."; when the element is ready and no crop area is set, the status is
    left as it is and only the message is set. *)
Theorem snapshot_not_ready_is_fatal (video : option VideoReading)
    (canvas : option string) (a : Component) :
  ((video = None \/ exists v, video = Some v /\ (readyState v < 2)%Z) ->
     status (handleTakeSnapshot video canvas a) = Error
     /\ error (handleTakeSnapshot video canvas a)
        = Some "Video stream is not ready.")
  /\ (forall v, video = Some v -> (2 <= readyState v)%Z -> cropArea a = None ->
        status (handleTakeSnapshot video canvas a) = status a
        /\ error (handleTakeSnapshot video canvas a)
           = Some "Please select an area on the preview to capture.").
Proof.
  split.
  - intros [-> | (v & -> & Hlt)]; [split; reflexivity|].
    unfold handleTakeSnapshot.
    destruct (Z.ltb_spec (readyState v) 2); [split; reflexivity | lia].
  - intros v -> Hge Hcrop. unfold handleTakeSnapshot.
    destruct (Z.ltb_spec (readyState v) 2); [lia|].
    rewrite Hcrop. split; reflexivity.
Qed.

(** A frame of which only metadata is there (HAVE_METADATA). *)
Lemma snapshot_not_ready_is_fatal_witness :
  let early :=
    {| readyState := 1; videoWidth := 1280; videoHeight := 720;
       clientWidth := 640; clientHeight := 360 |} in
  (status region_selected = Streaming
   /\ status (handleTakeSnapshot (Some early) (Some png) region_selected) = Error
   /\ error (handleTakeSnapshot (Some early) (Some png) region_selected)
      = Some "Video stream is not ready.")
  /\ (cropArea (after [ClickStartCapture; DisplayMediaSettled 0 (Resolved 1)])
      = None
      /\ status (handleTakeSnapshot (Some frame) (Some png)
                   (after [ClickStartCapture; DisplayMediaSettled 0 (Resolved 1)]))
         = Streaming).
Proof.
  intros early. split.
  - split; [reflexivity|].
    apply (snapshot_not_ready_is_fatal (Some early) (Some png) region_selected).
    right. exists early. split; [reflexivity | cbn; lia].
  - split; [reflexivity|].
    apply (snapshot_not_ready_is_fatal (Some frame) (Some png)
             (after [ClickStartCapture; DisplayMediaSettled 0 (Resolved 1)])
             ) with (v := frame); [reflexivity | cbn; lia | reflexivity].
Defined.

(** The same through the button: the click is offered while Streaming with a
    region selected, and an element that is not ready makes it fatal. *)
Example snapshot_click_not_ready :
  exists a',
    step (ClickTakeSnapshot
            {| readyState := 1; videoWidth := 1280; videoHeight := 720;
               clientWidth := 640; clientHeight := 360 |} (Some png))
         region_selected = Some a'
    /\ status a' = Error
    /\ error a' = Some "Video stream is not ready."
    /\ transcription a' = transcription region_selected.
Proof. eexists. split; [vm_compute; reflexivity|]. repeat split. Qed.

(** C8: with the element ready and a crop area set, the snapshot scales the
    crop rectangle by (videoWidth / clientWidth, videoHeight / clientHeight).
    When the scaled width or height is below 1 (its integer part, which is
    what a canvas keeps of a width, is then 0) nothing is drawn or sent and
    the status is Streaming; otherwise the canvas draws exactly the scaled
    rectangle.  At a scale of 2 in both directions the rectangle
    (10, 10, 100, 80) gives (20, 20, 200, 160). *)
Theorem snapshot_scales_region (v : VideoReading) (canvas : option string)
    (crop : Rect.t) (a : Component) :
  (2 <= readyState v)%Z ->
  cropArea a = Some crop ->
  let scaleX := (videoWidth v / clientWidth v)%float in
  let scaleY := (videoHeight v / clientHeight v)%float in
  let a' := handleTakeSnapshot (Some v) canvas a in
  (if (PrimFloat.ltb (Rect.width crop * scaleX) 1
       || PrimFloat.ltb (Rect.height crop * scaleY) 1)%bool
   then status a' = Streaming
        /\ drawn a' = drawn a
        /\ pendingTranscribe a' = pendingTranscribe a
        /\ lastScreenshot a' = lastScreenshot a
        /\ transcription a' = transcription a
        /\ currentSnippet a' = currentSnippet a
   else forall dataUrl, canvas = Some dataUrl ->
        status a' = Transcribing
        /\ drawn a'
           = (drawn a ++ [{| sx := Rect.x crop * scaleX;
                             sy := Rect.y crop * scaleY;
                             sWidth := Rect.width crop * scaleX;
                             sHeight := Rect.height crop * scaleY |}])%list
        /\ lastScreenshot a' = Some dataUrl)
  /\ (scaleX = 2%float -> scaleY = 2%float -> crop = Rect.mk 10 10 100 80 ->
      forall dataUrl, canvas = Some dataUrl ->
      drawn a'
      = (drawn a ++ [{| sx := 20; sy := 20; sWidth := 200; sHeight := 160 |}])%list).
Proof.
  intros Hready Hcrop scaleX scaleY a'.
  assert (a' = 
    let a1 := a ;> setStatus Transcribing ;> setError None in
    let src := source_region v crop in
    if (PrimFloat.ltb (sWidth src) 1 || PrimFloat.ltb (sHeight src) 1)%bool
    then a1 ;> setStatus Streaming
    else match canvas with
         | Some dataUrl =>
             a1 ;> set_drawn (drawn a1 ++ [src])
                ;> setLastScreenshot (Some dataUrl)
                ;> set_pendingTranscribe
                     (pendingTranscribe a1 ++ [split_comma dataUrl !! 1%nat])
         | None =>
             a1 ;> setError (Some "Could not get canvas context to take a snapshot.")
                ;> setStatus Error
         end) as Ha'.
  { subst a'. unfold handleTakeSnapshot.
    destruct (Z.ltb_spec (readyState v) 2); [lia|]. rewrite Hcrop. reflexivity. }
  split.
  - rewrite Ha'. cbn. fold scaleX scaleY.
    destruct (PrimFloat.ltb (Rect.width crop * scaleX) 1
              || PrimFloat.ltb (Rect.height crop * scaleY) 1)%bool.
    + repeat split.
    + intros dataUrl ->. repeat split.
  - intros Hx Hy -> dataUrl ->. rewrite Ha'. unfold source_region.
    fold scaleX scaleY. rewrite Hx, Hy. reflexivity.
Qed.

Lemma snapshot_scales_region_witness :
  (2 <= readyState frame)%Z
  /\ cropArea region_selected = Some (Rect.mk 10 10 100 80)
  /\ drawn (handleTakeSnapshot (Some frame) (Some png) region_selected)
     = [{| sx := 20; sy := 20; sWidth := 200; sHeight := 160 |}].
Proof.
  split; [cbn; lia|]. split; [reflexivity|].
  pose proof (snapshot_scales_region frame (Some png) (Rect.mk 10 10 100 80)
                region_selected ltac:(cbn; lia) eq_refl) as H.
  cbv zeta in H. destruct H as [_ H].
  exact (H eq_refl eq_refl eq_refl png eq_refl).
Defined.

(** A region that scales to less than a pixel: a 10x10 rectangle of a 640x360
    preview of a 32x18 stream.  The click leaves the session in Streaming. *)
Example snapshot_below_one_pixel :
  let tiny := {| readyState := 4; videoWidth := 32; videoHeight := 18;
                 clientWidth := 640; clientHeight := 360 |} in
  exists a a',
    run in_phase
      [ClickStartCapture; DisplayMediaSettled 0 (Resolved 1);
       MouseDown 110 60 100 50; MouseMove 120 70 100 50; MouseUp] initial
    = Some a
    /\ status a = Streaming
    /\ cropArea a = Some (Rect.mk 10 10 10 10)
    /\ step (ClickTakeSnapshot tiny (Some png)) a = Some a'
    /\ status a' = Streaming
    /\ drawn a' = []
    /\ pendingTranscribe a' = []
    /\ lastScreenshot a' = None.
Proof.
  eexists. eexists. split; [vm_compute; reflexivity|].
  split; [reflexivity|]. split; [reflexivity|].
  split; [vm_compute; reflexivity|]. repeat split.
Qed.

(** ** Failures *)

(** C7: when the transcription call fails while the status is Transcribing,
    the status returns to Streaming, the error is the non-empty message
    "Transcription failed. Please try another snapshot.", and the transcript,
    the stream reference and the tracks are as before. *)
Theorem transcription_failure_keeps_session (a : Component) (k : nat)
    (base64Data : option string) (api : GenerateContent) (e : Exception) :
  status a = Transcribing ->
  pendingTranscribe a !! k = Some base64Data ->
  transcribeImage base64Data api = Rejected e ->
  exists a',
    step (TranscribeSettled k api) a = Some a'
    /\ status a' = Streaming
    /\ error a' = Some "Transcription failed. Please try another snapshot."
    /\ error a' <> Some ""
    /\ transcription a' = transcription a
    /\ streamRef a' = streamRef a
    /\ streams a' = streams a.
Proof.
  intros Hst Hk Hrej. unfold step, offered. rewrite Hk. cbn.
  eexists; split; [reflexivity|].
  rewrite commit_hooks, commit_streamRef, commit_env.
  rewrite Hk, Hrej. cbn. repeat split. discriminate.
Qed.

Lemma transcription_failure_keeps_session_witness :
  status in_transcribing = Transcribing
  /\ pendingTranscribe in_transcribing !! 0 = Some (Some "iVBORw0KGgo=")
  /\ exists a',
       step (TranscribeSettled 0
               (Rejected {| name := "ApiError"; message := "503" |}))
            in_transcribing = Some a'
       /\ status a' = Streaming
       /\ error a' = Some "Transcription failed. Please try another snapshot."
       /\ error a' <> Some ""
       /\ transcription a' = transcription in_transcribing
       /\ streamRef a' = streamRef in_transcribing
       /\ streams a' = streams in_transcribing.
Proof.
  split; [reflexivity|]. split; [reflexivity|].
  eapply transcription_failure_keeps_session; reflexivity.
Defined.

(** C6: when the acquisition fails while the status is Capturing, a
    NotAllowedError or an AbortError resets the session to Idle with no error,
    and any other failure sets the status to Error with the message "Failed to
    start screen capture. Please check permissions and try again.". *)
Theorem acquisition_failure (a : Component) (k : nat) (cl : EndSessionClosure)
    (err : Exception) :
  status a = Capturing ->
  pendingDisplayMedia a !! k = Some cl ->
  exists a',
    step (DisplayMediaSettled k (Rejected err)) a = Some a'
    /\ if decide (name err = "NotAllowedError" \/ name err = "AbortError")
       then status a' = Idle
            /\ error a' = None
            /\ transcription a' = ""
            /\ currentSnippet a' = ""
            /\ lastScreenshot a' = None
            /\ cropArea a' = None
            /\ isCopied a' = false
            /\ isEditing a' = false
            /\ isSelecting a' = false
            /\ streamRef a' = None
       else status a' = Error
            /\ error a'
               = Some "Failed to start screen capture. Please check permissions and try again."
            /\ error a' <> Some "".
Proof.
  intros Hst Hk. unfold step, offered. rewrite Hk. cbn.
  eexists; split; [reflexivity|].
  rewrite commit_hooks, commit_streamRef. rewrite Hk. cbn.
  unfold handleStartCapture_catch.
  case_decide as Hname.
  - assert ((String.eqb (name err) "NotAllowedError"
             || String.eqb (name err) "AbortError")%bool = true) as ->.
    { destruct Hname as [-> | ->]; reflexivity. }
    rewrite handleStartNewSession_hooks, handleStartNewSession_streamRef.
    repeat split.
  - assert ((String.eqb (name err) "NotAllowedError"
             || String.eqb (name err) "AbortError")%bool = false) as ->.
    { apply orb_false_intro; apply String.eqb_neq; tauto. }
    cbn. repeat split. discriminate.
Qed.

Lemma acquisition_failure_witness :
  status in_capturing = Capturing
  /\ pendingDisplayMedia in_capturing !! 0 = Some nothing_captured
  /\ (exists a',
        step (DisplayMediaSettled 0
                (Rejected {| name := "NotAllowedError";
                             message := "Permission denied" |}))
             in_capturing = Some a'
        /\ status a' = Idle /\ error a' = None)
  /\ (exists a',
        step (DisplayMediaSettled 0
                (Rejected {| name := "NotFoundError";
                             message := "Requested device not found" |}))
             in_capturing = Some a'
        /\ status a' = Error
        /\ error a'
           = Some "Failed to start screen capture. Please check permissions and try again.").
Proof.
  split; [reflexivity|]. split; [reflexivity|]. split.
  - destruct (acquisition_failure in_capturing 0 nothing_captured
                {| name := "NotAllowedError"; message := "Permission denied" |}
                eq_refl eq_refl) as (a' & Hstep & H).
    exists a'. split; [exact Hstep|].
    rewrite decide_True in H by (left; reflexivity). tauto.
  - destruct (acquisition_failure in_capturing 0 nothing_captured
                {| name := "NotFoundError";
                   message := "Requested device not found" |}
                eq_refl eq_refl) as (a' & Hstep & H).
    exists a'. split; [exact Hstep|].
    rewrite decide_False in H; [tauto|].
    cbn. intros [? | ?]; discriminate.
Defined.

(** ** Invariants of the reachable states *)

Lemma closures_stale_env (a b : Component) :
  pendingDisplayMedia b = pendingDisplayMedia a ->
  streams b = streams a ->
  closures_stale a -> closures_stale b.
Proof. unfold closures_stale. intros -> ->. trivial. Qed.

Lemma stale_tracks_alter (f : MediaStreamTrack -> MediaStreamTrack)
    (m : list MediaStreamTrack) (j : nat) :
  (forall t, onended (f t) = onended t) ->
  Forall (fun t => forall cl, onended t = Some cl -> cl = nothing_captured) m ->
  Forall (fun t => forall cl, onended t = Some cl -> cl = nothing_captured)
    (alter f j m).
Proof.
  intros Hf Hm. apply Forall_alter; [assumption|].
  intros t _ Ht cl. rewrite Hf. apply Ht.
Qed.

Lemma stale_tracks_fmap (f : MediaStreamTrack -> MediaStreamTrack)
    (m : list MediaStreamTrack) :
  (forall t, onended (f t) = onended t) ->
  Forall (fun t => forall cl, onended t = Some cl -> cl = nothing_captured) m ->
  Forall (fun t => forall cl, onended t = Some cl -> cl = nothing_captured)
    (f <$> m).
Proof.
  intros Hf Hm. apply Forall_fmap. eapply Forall_impl; [exact Hm|].
  intros t Ht cl. cbn. rewrite Hf. apply Ht.
Qed.

Lemma stopStream_pending (a : Component) :
  pendingDisplayMedia (stopStream a) = pendingDisplayMedia a.
Proof. unfold stopStream. repeat case_match; reflexivity. Qed.

Lemma stopStream_closures_stale (a : Component) :
  closures_stale a -> closures_stale (stopStream a).
Proof.
  intros [Hp Hs]. split; [rewrite stopStream_pending; assumption|].
  unfold stopStream. destruct (streamRef a) as [i|].
  - assert (Forall
              (Forall (fun t => forall cl, onended t = Some cl -> cl = nothing_captured))
              (alter (fmap stop) i (streams a))) as H.
    { apply Forall_alter; [assumption|]. intros m _ Hm.
      apply stale_tracks_fmap; [reflexivity | assumption]. }
    case_match; exact H.
  - case_match; exact Hs.
Qed.

Lemma handleStartNewSession_closures_stale (a : Component) :
  closures_stale a -> closures_stale (handleStartNewSession a).
Proof. intros H. apply (stopStream_closures_stale a H). Qed.

Lemma handleEndSession_closures_stale (cl : EndSessionClosure) (a : Component) :
  closures_stale a -> closures_stale (handleEndSession cl a).
Proof.
  intros H. unfold handleEndSession. case_match.
  - apply (stopStream_closures_stale a H).
  - apply handleStartNewSession_closures_stale, stopStream_closures_stale, H.
Qed.

Lemma end_track_closures_stale (i j : nat) (a : Component) :
  closures_stale a -> closures_stale (end_track i j a).
Proof.
  intros [Hp Hs]. split; [exact Hp|].
  unfold end_track. cbn. apply Forall_alter; [assumption|].
  intros m _ Hm. apply stale_tracks_alter; [reflexivity | assumption].
Qed.

Lemma handleStartCapture_catch_closures_stale (err : Exception) (a : Component) :
  closures_stale a -> closures_stale (handleStartCapture_catch err a).
Proof.
  intros H. unfold handleStartCapture_catch. case_match; [|exact H].
  apply handleStartNewSession_closures_stale, H.
Qed.

Lemma handleStartCapture_settled_closures_stale (r : Settled nat Exception)
    (a : Component) :
  closures_stale a ->
  closures_stale (handleStartCapture_settled nothing_captured r a).
Proof.
  intros [Hp Hs]. unfold handleStartCapture_settled.
  destruct r as [n|err]; [|apply handleStartCapture_catch_closures_stale; split; assumption].
  assert (Forall
            (Forall (fun t => forall cl, onended t = Some cl -> cl = nothing_captured))
            (streams a ++ [replicate n {| track_state := live; onended := None |}]))
    as Hnew.
  { apply Forall_app. split; [assumption|]. apply Forall_singleton.
    apply Forall_replicate. discriminate. }
  destruct n as [|n].
  - apply handleStartCapture_catch_closures_stale. split; [exact Hp | exact Hnew].
  - split; [exact Hp|]. cbn -[replicate]. apply Forall_alter; [exact Hnew|].
    intros m _ Hm. destruct m as [|t m]; [constructor|].
    apply Forall_cons in Hm as [_ Hm]. cbn. constructor; [|exact Hm].
    cbn. intros cl [= <-]. reflexivity.
Qed.

Lemma current_closure_idle (a : Component) :
  idle_is_clean a -> status a = Idle -> current_closure a = nothing_captured.
Proof.
  intros (_ & H & _) Hst. destruct (H Hst) as [Ht Hl].
  unfold current_closure. rewrite Ht, Hl. reflexivity.
Qed.

Ltac same_env H :=
  eapply closures_stale_env; [ | | exact H];
  repeat (first [progress cbn | case_match]); reflexivity.

Lemma handle_closures_stale (e : Event) (a : Component) :
  offered e a = true -> idle_is_clean a -> closures_stale (handle e a).
Proof.
  intros Hoff Hinv. pose proof Hinv as (_ & _ & Hcl).
  destruct e; cbn [handle offered] in *.
  - (* ClickStartCapture *)
    apply bool_decide_eq_true in Hoff.
    unfold handleStartCapture. rewrite (current_closure_idle a Hinv Hoff).
    destruct Hcl as [Hp Hs]. split; [|exact Hs].
    cbn. apply Forall_app. split; [exact Hp|]. apply Forall_singleton. reflexivity.
  - (* DisplayMediaSettled *)
    destruct (pendingDisplayMedia a !! k) as [cl|] eqn:Hk; [|exact Hcl].
    destruct Hcl as [Hp Hs].
    assert (cl = nothing_captured) as ->
      by (exact (proj1 (Forall_lookup _ _) Hp k cl Hk)).
    apply handleStartCapture_settled_closures_stale.
    split; [|exact Hs]. cbn. apply Forall_delete, Hp.
  - (* TrackEnded *)
    destruct (get_track stream track a ≫= onended).
    + apply handleEndSession_closures_stale, end_track_closures_stale, Hcl.
    + apply end_track_closures_stale, Hcl.
  - same_env Hcl.
  - same_env Hcl.
  - same_env Hcl.
  - unfold handleMouseMove. same_env Hcl.
  - unfold handleMouseUp. same_env Hcl.
  - unfold handleMouseLeave, handleMouseUp. same_env Hcl.
  - unfold handleTakeSnapshot, not_ready. same_env Hcl.
  - unfold handleTakeSnapshot_settled. same_env Hcl.
  - same_env Hcl.
  - same_env Hcl.
  - same_env Hcl.
  - apply handleEndSession_closures_stale, Hcl.
  - apply handleStartNewSession_closures_stale, Hcl.
  - same_env Hcl.
  - same_env Hcl.
  - same_env Hcl.
  - same_env Hcl.
  - unfold handleCopy. same_env Hcl.
  - same_env Hcl.
  - same_env Hcl.
  - same_env Hcl.
Qed.

(** Unfold the handler of the event at hand down to setters, the stream
    release and the reset, split on every test, and project the hooks. *)
Ltac run_handler :=
  unfold handleStartCapture, handleStartCapture_settled,
    handleStartCapture_catch, handleEndSession, end_track, video_play_catch,
    video_onerror, handleMouseDown, handleMouseMove, handleMouseUp,
    handleMouseLeave, handleMouseUp, handleTakeSnapshot, not_ready,
    handleTakeSnapshot_settled, handleSaveAndContinue, handleDiscardSnippet,
    handleCopy, handleCopy_written, handleCopy_timeout, handleDownload,
    read_video, transcribeImage in *;
  repeat case_match;
  cbn in *;
  rewrite ?handleStartNewSession_hooks, ?stopStream_hooks in *;
  cbn in *.

Ltac read_offer H :=
  rewrite ?panels_unfold, ?isSessionActive_unfold in H; unfold controls in H;
  rewrite ?panels_unfold in H.

Lemma handle_idle_is_clean (e : Event) (a : Component) :
  offered e a = true -> idle_is_clean a -> idle_is_clean (handle e a).
Proof.
  intros Hoff Hinv. pose proof (handle_closures_stale e a Hoff Hinv) as Hcl.
  destruct Hinv as (H1 & H2 & _).
  split; [|split; [|exact Hcl]]; clear Hcl;
    destruct e; cbn [handle offered] in *; read_offer Hoff; run_handler.
  all: try (intros; simplify_eq/=; done).
  all: try apply bool_decide_eq_true in Hoff.
  all: intuition (simplify_eq/=; auto; congruence).
Qed.

Lemma onended_stale (a : Component) (i j : nat) (cl : EndSessionClosure) :
  closures_stale a -> get_track i j a ≫= onended = Some cl ->
  cl = nothing_captured.
Proof.
  intros [_ Hs] H. unfold get_track in H.
  destruct (streams a !! i) as [m|] eqn:Hi; [|discriminate].
  destruct (m !! j) as [t|] eqn:Hj; [|discriminate]. cbn in H.
  pose proof (proj1 (Forall_lookup _ _) Hs i m Hi) as Hm.
  exact (proj1 (Forall_lookup _ _) Hm j t Hj cl H).
Qed.

(** When the user agent ends a track that carries the handler, the session
    is reset, whatever has been captured since the stream was acquired: the
    handler still sees the empty transcript of the render that started the
    capture. *)
Lemma track_ended_resets (a : Component) (i j : nat) (cl : EndSessionClosure) :
  idle_is_clean a -> get_track i j a ≫= onended = Some cl ->
  hooks (handle (TrackEnded i j) a)
  = mkHooks None "" "" Idle None false false (editedTranscription a) None false.
Proof.
  intros (_ & _ & Hcl) H. cbn [handle]. rewrite H.
  rewrite (onended_stale a i j cl Hcl H).
  unfold handleEndSession. cbn -[handleStartNewSession stopStream].
  rewrite handleStartNewSession_hooks, stopStream_hooks. reflexivity.
Qed.

Lemma handle_snippet_in_review (e : Event) (a : Component) :
  offered e a = true -> in_phase e a = true ->
  idle_is_clean a -> snippet_in_review a -> snippet_in_review (handle e a).
Proof.
  intros Hoff Hph Hinv [H1 H2].
  destruct e; cbn [in_phase] in Hph; try discriminate.
  3: { destruct (get_track stream track a ≫= onended) as [cl|] eqn:Hcl.
       - unfold snippet_in_review.
         rewrite (track_ended_resets a stream track cl Hinv Hcl).
         cbn. split; [reflexivity|]. intros [?|?]; discriminate.
       - cbn [handle]. rewrite Hcl. split; assumption. }
  all: split; cbn [handle offered] in *; read_offer Hoff; run_handler.
  all: try (intros; simplify_eq/=; done).
  all: try apply bool_decide_eq_true in Hph.
  all: rewrite ?andb_true_iff, ?negb_true_iff, ?orb_false_iff,
         ?bool_decide_eq_true, ?bool_decide_eq_false in Hoff.
  all: intuition (simplify_eq/=; auto; congruence).
Qed.

Lemma commit_idle_is_clean (p : Status) (a : Component) :
  idle_is_clean a -> idle_is_clean (commit p a).
Proof.
  unfold idle_is_clean, closures_stale.
  rewrite commit_hooks, commit_env. trivial.
Qed.

Lemma commit_snippet_in_review (p : Status) (a : Component) :
  snippet_in_review a -> snippet_in_review (commit p a).
Proof. unfold snippet_in_review. rewrite commit_hooks. trivial. Qed.

Lemma initial_idle_is_clean : idle_is_clean initial.
Proof.
  split; [split; reflexivity|]. split; [split; reflexivity|].
  split; constructor.
Qed.

Lemma initial_snippet_in_review : snippet_in_review initial.
Proof. split; reflexivity. Qed.

Lemma step_idle_is_clean (e : Event) (a a' : Component) :
  step e a = Some a' -> idle_is_clean a -> idle_is_clean a'.
Proof.
  intros [Hoff ->]%step_Some Hinv.
  apply commit_idle_is_clean, handle_idle_is_clean; assumption.
Qed.

Lemma run_idle_is_clean (ok : Event -> Component -> bool) (es : list Event) :
  forall a a', run ok es a = Some a' -> idle_is_clean a -> idle_is_clean a'.
Proof.
  induction es as [|e es IH]; cbn; intros a a' Hrun Hinv.
  - injection Hrun as <-. exact Hinv.
  - destruct (ok e a); [|discriminate].
    destruct (step e a) as [a1|] eqn:Hstep; [|discriminate]. cbn in Hrun.
    eapply IH; [exact Hrun|]. eapply step_idle_is_clean; eassumption.
Qed.

Lemma run_in_phase_snippet_in_review (es : list Event) :
  forall a a',
    run in_phase es a = Some a' ->
    idle_is_clean a -> snippet_in_review a -> snippet_in_review a'.
Proof.
  induction es as [|e es IH]; cbn; intros a a' Hrun Hinv Hsn.
  - injection Hrun as <-. exact Hsn.
  - destruct (in_phase e a) eqn:Hph; [|discriminate].
    destruct (step e a) as [a1|] eqn:Hstep; [|discriminate]. cbn in Hrun.
    eapply IH; [exact Hrun| |].
    + eapply step_idle_is_clean; eassumption.
    + apply step_Some in Hstep as [Hoff ->].
      apply commit_snippet_in_review, handle_snippet_in_review; assumption.
Qed.

(** A run in phase is a run. *)
Lemma run_in_phase_any_order (es : list Event) :
  forall a a', run in_phase es a = Some a' -> run any_order es a = Some a'.
Proof.
  induction es as [|e es IH]; cbn; intros a a' Hrun; [exact Hrun|].
  destruct (in_phase e a); [|discriminate].
  destruct (step e a) as [a1|]; [|discriminate]. cbn in *. auto.
Qed.

Lemma reachable_idle_is_clean (a : Component) : reachable a -> idle_is_clean a.
Proof.
  intros [es Hrun].
  eapply run_idle_is_clean; [exact Hrun | exact initial_idle_is_clean].
Qed.

(** ** The snippet and the crop area across the session *)

(** Where no snippet is under review and the snippet is empty outside a
    review, there is no snippet at all. *)
Lemma no_review_no_snippet (a : Component) :
  (status a <> Reviewing -> currentSnippet a = "") ->
  under_review a = false -> currentSnippet a = "".
Proof.
  unfold under_review, truthy. intros H1 Hu.
  destruct (decide (status a = Reviewing)) as [Hst|Hst]; [|auto].
  rewrite bool_decide_eq_true_2 in Hu by exact Hst. cbn in Hu.
  apply negb_false_iff, String.eqb_eq in Hu. exact Hu.
Qed.

(** The events an undisturbed order admits either keep the status Reviewing
    or leave no snippet. *)
Lemma handle_undisturbed (e : Event) (a : Component) :
  offered e a = true -> undisturbed e a = true -> idle_is_clean a ->
  (status a <> Reviewing -> currentSnippet a = "") ->
  status (handle e a) <> Reviewing -> currentSnippet (handle e a) = "".
Proof.
  intros Hoff Hun Hinv H1.
  pose proof (no_review_no_snippet a H1) as Hno.
  destruct e; cbn [undisturbed] in Hun.
  3: { destruct (get_track stream track a ≫= onended) as [cl|] eqn:Hcl.
       - rewrite (track_ended_resets a stream track cl Hinv Hcl). reflexivity.
       - cbn [handle]. rewrite Hcl. exact H1. }
  2: destruct r as [n|err];
       [|apply orb_true_iff in Hun as [Hun|Hcancel];
         [apply orb_true_iff in Hun as [Hun|Hcancel]|]].
  all: try match type of Hun with
           | match ?api with Resolved _ => _ | Rejected _ => _ end = true =>
               destruct api
           end.
  all: try (apply negb_true_iff, Hno in Hun).
  all: destruct Hinv as (Hidle & _ & _); clear Hno.
  all: cbn [handle offered] in *; read_offer Hoff; run_handler.
  all: try (intros; simplify_eq/=; done).
  all: rewrite ?andb_true_iff, ?orb_true_iff, ?negb_true_iff, ?orb_false_iff,
         ?bool_decide_eq_true, ?bool_decide_eq_false in Hoff.
  all: try match goal with
           | H : (_ || _)%bool = false |- _ => apply orb_false_iff in H as [? ?]
           end.
  all: intuition (simplify_eq/=; auto; congruence).
Qed.

Lemma run_undisturbed_snippet (es : list Event) :
  forall a a',
    run undisturbed es a = Some a' ->
    idle_is_clean a ->
    (status a <> Reviewing -> currentSnippet a = "") ->
    status a' <> Reviewing -> currentSnippet a' = "".
Proof.
  induction es as [|e es IH]; cbn; intros a a' Hrun Hinv Hsn.
  - injection Hrun as <-. exact Hsn.
  - destruct (undisturbed e a) eqn:Hun; [|discriminate].
    destruct (step e a) as [a1|] eqn:Hstep; [|discriminate]. cbn in Hrun.
    eapply IH; [exact Hrun| |].
    + eapply step_idle_is_clean; eassumption.
    + apply step_Some in Hstep as [Hoff ->]. rewrite commit_hooks.
      apply handle_undisturbed; assumption.
Qed.

(** A run in phase is undisturbed. *)
Lemma in_phase_undisturbed (e : Event) (a : Component) :
  in_phase e a = true -> undisturbed e a = true.
Proof.
  destruct e; cbn; try done; try destruct r; try destruct api;
    intros H%bool_decide_eq_true; unfold under_review; try rewrite H;
    reflexivity.
Qed.

Lemma run_in_phase_undisturbed (es : list Event) :
  forall a a', run in_phase es a = Some a' -> run undisturbed es a = Some a'.
Proof.
  induction es as [|e es IH]; cbn; intros a a' Hrun; [exact Hrun|].
  destruct (in_phase e a) eqn:Hph; [|discriminate].
  rewrite (in_phase_undisturbed e a Hph).
  destruct (step e a) as [a1|]; [|discriminate]. cbn in *. auto.
Qed.

(** C1, as the code has it: along every sequence of events in which, while a
    non-empty snippet is under review, the video element reports no failure,
    no acquisition settles other than by the user's cancellation and no
    transcription fails, a non-empty snippet implies the status Reviewing;
    along every sequence of events whatsoever, a non-empty snippet excludes
    the statuses Idle and Capturing. *)
Theorem snippet_only_in_review (es : list Event) (a : Component) :
  (run undisturbed es initial = Some a ->
     currentSnippet a <> "" -> status a = Reviewing)
  /\ (run any_order es initial = Some a ->
        currentSnippet a <> "" -> status a <> Idle /\ status a <> Capturing).
Proof.
  split.
  - intros Hrun Hne.
    destruct (decide (status a = Reviewing)) as [|Hst]; [assumption|].
    contradiction Hne.
    apply (run_undisturbed_snippet es initial a Hrun initial_idle_is_clean);
      [reflexivity | exact Hst].
  - intros Hrun Hne.
    destruct (run_idle_is_clean any_order es initial a Hrun
                initial_idle_is_clean) as [H _].
    split; intros Hst; apply Hne, H; auto.
Qed.

Lemma snippet_only_in_review_witness :
  run undisturbed second_review initial = Some in_second_review
  /\ run any_order second_review initial = Some in_second_review
  /\ currentSnippet in_second_review <> ""
  /\ status in_second_review = Reviewing
  /\ status in_second_review <> Idle
  /\ status in_second_review <> Capturing.
Proof.
  assert (run undisturbed second_review initial = Some in_second_review) as Hp
    by (vm_compute; reflexivity).
  assert (run any_order second_review initial = Some in_second_review) as Ha
    by (vm_compute; reflexivity).
  assert (currentSnippet in_second_review <> "") as Hne by discriminate.
  destruct (snippet_only_in_review second_review in_second_review) as [H1 H2].
  split; [exact Hp|]. split; [exact Ha|]. split; [exact Hne|].
  split; [exact (H1 Hp Hne) | exact (H2 Ha Hne)].
Defined.

(** C1 as stated fails: a failure of the video element during the review
    sets the status to Error and leaves the snippet in place. *)
Lemma snippet_outlives_review :
  exists a,
    run any_order (reviewing "A" ++ [VideoError]) initial = Some a
    /\ currentSnippet a = "A"
    /\ status a = Error.
Proof. eexists. split; [vm_compute; reflexivity|]. split; reflexivity. Qed.

(** The same without any failure of the element: the user stops sharing
    during the transcription and starts a new capture; the text arrives while
    the screen picker is open, and the new stream then sets the status to
    Streaming. *)
Example snippet_outlives_review_by_race :
  exists a,
    run any_order
      (selecting ++ [ClickTakeSnapshot frame (Some png); TrackEnded 0 0;
                     ClickStartCapture;
                     TranscribeSettled 0 (Resolved (Some "A"));
                     DisplayMediaSettled 0 (Resolved 1)]) initial = Some a
    /\ currentSnippet a = "A"
    /\ status a = Streaming.
Proof. eexists. split; [vm_compute; reflexivity|]. split; reflexivity. Qed.

(** Each event that an undisturbed order refuses does break the review: it
    is refused only while a non-empty snippet is under review, and when it
    happens then the snippet stays and the status is no longer Reviewing. *)
Lemma disturbed_review_is_left (e : Event) (a a' : Component) :
  undisturbed e a = false -> step e a = Some a' ->
  (status a = Reviewing /\ currentSnippet a <> "")
  /\ currentSnippet a' = currentSnippet a
  /\ status a' <> Reviewing.
Proof.
  intros Hun [Hoff ->]%step_Some. rewrite commit_hooks.
  assert (under_review a = true) as Hu.
  { destruct e; cbn [undisturbed] in Hun; try discriminate;
      try destruct r; try destruct api; try discriminate;
      rewrite ?orb_false_iff in Hun;
      destruct (under_review a); intuition (cbn in *; congruence). }
  split.
  { unfold under_review, truthy in Hu.
    apply andb_true_iff in Hu as [Hst%bool_decide_eq_true Hs].
    split; [exact Hst|]. intros Hs'. rewrite Hs' in Hs. discriminate. }
  clear Hu.
  destruct e; cbn [undisturbed] in Hun; try discriminate;
    try destruct r; try destruct api; try discriminate;
    rewrite ?orb_false_iff in Hun;
    cbn [handle offered] in *; run_handler;
    try apply bool_decide_eq_true in Hoff;
    try solve [split; [reflexivity | discriminate]].
  - discriminate.
  - destruct Hun as [[_ Hn] Hb]. rewrite Hn, Hb in *. discriminate.
Qed.

(** Two of these events in a session: the transcription of an earlier
    session fails while the snippet of the present one is under review, and
    the status goes back to Streaming with the snippet in place. *)
Example snippet_outlives_review_by_late_failure :
  exists a,
    run any_order
      (selecting ++ [ClickTakeSnapshot frame (Some png); ClickEndSession;
                     ClickStartNewSession]
       ++ selecting
       ++ [ClickTakeSnapshot frame (Some png);
           TranscribeSettled 1 (Resolved (Some "A"));
           TranscribeSettled 0 (Rejected (new_Error "503"))]) initial = Some a
    /\ currentSnippet a = "A"
    /\ status a = Streaming.
Proof. eexists. split; [vm_compute; reflexivity|]. split; reflexivity. Qed.



(** In phase, a review starts and stays without an error message. *)
Lemma error_none_in_review (es : list Event) (a : Component) :
  run in_phase es initial = Some a -> status a = Reviewing -> error a = None.
Proof.
  intros Hrun Hst.
  destruct (run_in_phase_snippet_in_review es initial a Hrun
              initial_idle_is_clean initial_snippet_in_review) as [_ H].
  auto.
Qed.

(** C2, as the code has it: in every reachable state a defined crop area
    excludes the statuses Idle and Capturing; the start of a capture and the
    reset clear it, and the end of a drag clears it when its width or height
    is below 10; a snapshot, the result of a transcription, a save, a discard
    and an end of session that goes to Success leave it as it is. *)
Theorem crop_area_cleared_on_reset (es : list Event) (a : Component) :
  run any_order es initial = Some a ->
  (cropArea a <> None -> status a <> Idle /\ status a <> Capturing)
  /\ cropArea (handleStartCapture a) = None
  /\ cropArea (handleStartNewSession a) = None
  /\ (forall crop, cropArea a = Some crop ->
        (PrimFloat.ltb (Rect.width crop) 10
         || PrimFloat.ltb (Rect.height crop) 10)%bool = true ->
        cropArea (handleMouseUp a) = None)
  /\ (forall video canvas,
        cropArea (handleTakeSnapshot video canvas a) = cropArea a)
  /\ (forall r, cropArea (handleTakeSnapshot_settled r a) = cropArea a)
  /\ cropArea (handleSaveAndContinue a) = cropArea a
  /\ cropArea (handleDiscardSnippet a) = cropArea a
  /\ (forall cl, status (handleEndSession cl a) = Success ->
        cropArea (handleEndSession cl a) = cropArea a).
Proof.
  intros Hrun.
  destruct (run_idle_is_clean any_order es initial a Hrun initial_idle_is_clean)
    as [H _].
  split; [|split; [|split; [|split; [|split; [|split; [|split; [|split]]]]]]].
  - intros Hne. split; intros Hst; apply Hne, H; auto.
  - reflexivity.
  - rewrite handleStartNewSession_hooks. reflexivity.
  - intros crop Hc Hlt. unfold handleMouseUp. rewrite Hc, Hlt. reflexivity.
  - intros video canvas. unfold handleTakeSnapshot, not_ready.
    repeat case_match; cbn; congruence.
  - intros [result|err]; reflexivity.
  - reflexivity.
  - reflexivity.
  - intros cl. unfold handleEndSession. case_match.
    + intros _. cbn. rewrite stopStream_hooks. reflexivity.
    + rewrite handleStartNewSession_hooks. discriminate.
Qed.

Lemma crop_area_cleared_on_reset_witness :
  run any_order (reviewing "A") initial = Some in_review
  /\ cropArea in_review <> None
  /\ status in_review <> Idle
  /\ status in_review <> Capturing
  /\ cropArea (handleSaveAndContinue in_review) = cropArea in_review
  /\ cropArea (handleStartNewSession in_review) = None.
Proof.
  assert (run any_order (reviewing "A") initial = Some in_review) as Hrun
    by (vm_compute; reflexivity).
  assert (cropArea in_review <> None) as Hne by discriminate.
  destruct (crop_area_cleared_on_reset (reviewing "A") in_review Hrun)
    as (H1 & _ & H3 & _ & _ & _ & H7 & _).
  split; [exact Hrun|]. split; [exact Hne|].
  split; [exact (proj1 (H1 Hne))|]. split; [exact (proj2 (H1 Hne))|].
  split; [exact H7 | exact H3].
Defined.

(** C2 as stated fails: the crop area of a snapshot is still defined in the
    review of that snapshot, and after the save (or the discard) that follows. *)
Lemma crop_area_survives_snapshot :
  run any_order (reviewing "A") initial = Some in_review
  /\ status in_review = Reviewing
  /\ cropArea in_review = Some (Rect.mk 10 10 100 80)
  /\ (exists a', step ClickSaveAndContinue in_review = Some a'
                 /\ cropArea a' = Some (Rect.mk 10 10 100 80))
  /\ (exists a', step ClickDiscard in_review = Some a'
                 /\ cropArea a' = Some (Rect.mk 10 10 100 80)).
Proof.
  split; [vm_compute; reflexivity|]. split; [reflexivity|].
  split; [reflexivity|].
  split; eexists; (split; [vm_compute; reflexivity | reflexivity]).
Qed.

(** ** The end of a session *)

(** The End Session button: it is offered while Streaming or Transcribing;
    the tracks of the stream are stopped and the reference dropped; the status
    is Success when there is a transcript or a screenshot, and otherwise the
    session is reset to Idle. *)
Lemma end_session_click (a : Component) (i : nat) :
  offered ClickEndSession a = true ->
  streamRef a = Some i -> i < length (streams a) ->
  (status a = Streaming \/ status a = Transcribing)
  /\ exists a',
       step ClickEndSession a = Some a'
       /\ released i a'
       /\ streamRef a' = None
       /\ if (truthy (transcription a) || truthy_opt (lastScreenshot a))%bool
          then status a' = Success
               /\ transcription a' = transcription a
               /\ lastScreenshot a' = lastScreenshot a
          else hooks a'
               = mkHooks None "" "" Idle None false false
                   (editedTranscription a) None false.
Proof.
  intros Hoff Hi Hlt. split.
  - cbn in Hoff. read_offer Hoff.
    rewrite ?andb_true_iff, ?negb_true_iff, ?bool_decide_eq_false in Hoff.
    destruct (status a); intuition (try discriminate; try congruence).
  - unfold step. rewrite Hoff. eexists. split; [reflexivity|].
    pose proof (stopStream_released a i Hi Hlt) as Hrel.
    unfold released. rewrite commit_env, commit_streamRef, commit_hooks.
    cbn [handle]. unfold handleEndSession, current_closure. cbn [seen_transcription seen_lastScreenshot].
    destruct (truthy (transcription a) || truthy_opt (lastScreenshot a))%bool.
    + split; [exact Hrel|]. split; [apply stopStream_streamRef|].
      cbn. rewrite stopStream_hooks. repeat split.
    + split.
      * destruct Hrel as (m & Hm & Hall). exists m. split; [|exact Hall].
        unfold handleStartNewSession. cbn. unfold stopStream at 1.
        rewrite stopStream_streamRef.
        destruct (videoRef (stopStream a)); exact Hm.
      * split; [apply handleStartNewSession_streamRef|].
        rewrite handleStartNewSession_hooks, stopStream_hooks. reflexivity.
Qed.

(** C3, at the input that fails: a snippet has been saved and the stream
    then ends externally.  The track is stopped, but the handler installed at
    the start of the capture sees no transcript: the session is reset to Idle
    and the transcript is lost.  The End Session button in the same state goes
    to Success and keeps it. *)
Theorem stream_ended_externally_resets :
  run in_phase (reviewing "A" ++ [ClickSaveAndContinue]) initial = Some saved_A
  /\ status saved_A = Streaming
  /\ transcription saved_A = "A"
  /\ streamRef saved_A = Some 0
  /\ (exists a',
        step (TrackEnded 0 0) saved_A = Some a'
        /\ released 0 a'
        /\ status a' = Idle
        /\ transcription a' = "")
  /\ (exists a',
        step ClickEndSession saved_A = Some a'
        /\ released 0 a'
        /\ status a' = Success
        /\ transcription a' = "A").
Proof.
  split; [vm_compute; reflexivity|].
  split; [reflexivity|]. split; [reflexivity|]. split; [reflexivity|].
  split; eexists; (split; [vm_compute; reflexivity|]);
    (split; [|split; reflexivity]);
    (eexists; split; [reflexivity|]); repeat constructor.
Qed.

(** The loss is not particular to that session: in every reachable state, the
    end of a track that carries the handler resets the session. *)
Lemma stream_ended_externally_always_resets (a a' : Component) (i j : nat)
    (cl : EndSessionClosure) :
  reachable a ->
  get_track i j a ≫= onended = Some cl ->
  step (TrackEnded i j) a = Some a' ->
  status a' = Idle /\ transcription a' = "" /\ lastScreenshot a' = None.
Proof.
  intros Hr Hcl [_ ->]%step_Some. rewrite commit_hooks.
  rewrite (track_ended_resets a i j cl (reachable_idle_is_clean a Hr) Hcl).
  repeat split.
Qed.

Lemma end_session_click_witness :
  offered ClickEndSession saved_A = true
  /\ streamRef saved_A = Some 0
  /\ (status saved_A = Streaming \/ status saved_A = Transcribing)
  /\ (exists a',
        step ClickEndSession saved_A = Some a'
        /\ released 0 a'
        /\ streamRef a' = None
        /\ status a' = Success
        /\ transcription a' = "A")
  /\ offered ClickEndSession region_selected = true
  /\ (exists a',
        step ClickEndSession region_selected = Some a'
        /\ released 0 a'
        /\ status a' = Idle
        /\ transcription a' = "").
Proof.
  split; [reflexivity|]. split; [reflexivity|].
  destruct (end_session_click saved_A 0 eq_refl eq_refl ltac:(cbn; lia))
    as (Hst & a1 & Hstep1 & Hrel1 & Href1 & H1).
  destruct (end_session_click region_selected 0 eq_refl eq_refl ltac:(cbn; lia))
    as (_ & a2 & Hstep2 & Hrel2 & _ & H2).
  cbn in H1, H2.
  split; [exact Hst|]. split.
  { exists a1. destruct H1 as (? & ? & _). repeat split; assumption. }
  split; [reflexivity|].
  exists a2. rewrite H2. repeat split; assumption.
Defined.

(** ** The crop gesture *)

(** The end of a drag: a crop area whose width or height is below 10 is
    cleared, any other is kept; the status does not change. *)
Lemma small_drag_clears_crop_area (a : Component) (crop : Rect.t) :
  offered MouseUp a = true ->
  cropArea a = Some crop ->
  exists a',
    step MouseUp a = Some a'
    /\ status a' = status a
    /\ isSelecting a' = false
    /\ cropArea a'
       = if (PrimFloat.ltb (Rect.width crop) 10
             || PrimFloat.ltb (Rect.height crop) 10)%bool
         then None else Some crop.
Proof.
  intros Hoff Hcrop. unfold step. rewrite Hoff.
  eexists. split; [reflexivity|]. rewrite commit_hooks.
  cbn [handle]. unfold handleMouseUp. rewrite Hcrop.
  destruct (PrimFloat.ltb (Rect.width crop) 10
            || PrimFloat.ltb (Rect.height crop) 10)%bool; repeat split.
  exact Hcrop.
Qed.

(** A drag 5 wide and 80 high, and the drag of the examples. *)
Lemma small_drag_clears_crop_area_witness :
  let narrow :=
    after [ClickStartCapture; DisplayMediaSettled 0 (Resolved 1);
           MouseDown 110 60 100 50; MouseMove 115 140 100 50] in
  let wide :=
    after [ClickStartCapture; DisplayMediaSettled 0 (Resolved 1);
           MouseDown 110 60 100 50; MouseMove 210 140 100 50] in
  (cropArea narrow = Some (Rect.mk 10 10 5 80)
   /\ exists a', step MouseUp narrow = Some a' /\ cropArea a' = None)
  /\ (cropArea wide = Some (Rect.mk 10 10 100 80)
      /\ exists a', step MouseUp wide = Some a'
                    /\ cropArea a' = Some (Rect.mk 10 10 100 80)).
Proof.
  intros narrow wide. split; (split; [reflexivity|]).
  - destruct (small_drag_clears_crop_area narrow (Rect.mk 10 10 5 80)
                eq_refl eq_refl) as (a' & Hstep & _ & _ & Hcrop).
    exists a'. split; assumption.
  - destruct (small_drag_clears_crop_area wide (Rect.mk 10 10 100 80)
                eq_refl eq_refl) as (a' & Hstep & _ & _ & Hcrop).
    exists a'. split; assumption.
Defined.

(** ** The text the service resolves to *)

Lemma trimStart_shorter (s : string) :
  String.length (trimStart s) <= String.length s.
Proof.
  induction s as [|c s IH]; cbn; [lia|]. destruct (isWhiteSpace c); cbn; lia.
Qed.

(** A string that [trimStart] leaves alone does not start with white space. *)
Lemma trimStart_fixed (c : ascii) (s : string) :
  trimStart (String c s) = String c s -> isWhiteSpace c = false.
Proof.
  cbn. destruct (isWhiteSpace c); [|reflexivity].
  intros H. pose proof (trimStart_shorter s) as Hle.
  rewrite H in Hle. cbn in Hle. lia.
Qed.

Lemma trimStart_idem (s : string) : trimStart (trimStart s) = trimStart s.
Proof.
  induction s as [|c s IH]; cbn; [reflexivity|].
  destruct (isWhiteSpace c) eqn:Hc; [exact IH|]. cbn. rewrite Hc. reflexivity.
Qed.

Lemma trimEnd_idem (s : string) : trimEnd (trimEnd s) = trimEnd s.
Proof.
  induction s as [|c s IH]; cbn; [reflexivity|].
  destruct (isWhiteSpace c && String.eqb (trimEnd s) "")%bool eqn:Hc;
    [reflexivity|].
  cbn. rewrite IH, Hc. reflexivity.
Qed.

(** Trimming the end leaves a clean start clean. *)
Lemma trimStart_trimEnd (s : string) :
  trimStart s = s -> trimStart (trimEnd s) = trimEnd s.
Proof.
  destruct s as [|c s]; [reflexivity|].
  intros Hc%trimStart_fixed. cbn. rewrite Hc. cbn. rewrite Hc. reflexivity.
Qed.

Lemma trim_idem (s : string) : trim (trim s) = trim s.
Proof.
  unfold trim.
  rewrite (trimStart_trimEnd (trimStart s) (trimStart_idem s)).
  apply trimEnd_idem.
Qed.

Lemma trimStart_empty_iff (s : string) :
  trimStart s = "" <->
  Forall (fun c => isWhiteSpace c = true) (list_ascii_of_string s).
Proof.
  induction s as [|c s IH]; cbn; [split; [constructor | reflexivity]|].
  destruct (isWhiteSpace c) eqn:Hc.
  - rewrite IH. split; [intros H; constructor; assumption|].
    intros H. apply Forall_cons in H as [_ H]. exact H.
  - split; [discriminate|]. intros H. apply Forall_cons in H as [H _]. congruence.
Qed.

Lemma trim_empty_iff (s : string) :
  trim s = "" <->
  Forall (fun c => isWhiteSpace c = true) (list_ascii_of_string s).
Proof.
  rewrite <- trimStart_empty_iff. unfold trim. split.
  - pose proof (trimStart_idem s) as Hid.
    destruct (trimStart s) as [|c r]; [reflexivity|].
    apply trimStart_fixed in Hid. cbn. rewrite Hid. discriminate.
  - intros ->. reflexivity.
Qed.

Lemma trimStart_trim (s : string) : trimStart (trim s) = trim s.
Proof. apply trimStart_trimEnd, trimStart_idem. Qed.

Lemma trimEnd_trim (s : string) : trimEnd (trim s) = trim s.
Proof. apply trimEnd_idem. Qed.

Lemma append_cons (c : ascii) (s t : string) :
  String c s ++ t = String c (s ++ t).
Proof. reflexivity. Qed.

Lemma append_empty (t : string) : "" ++ t = t.
Proof. reflexivity. Qed.

(** A string that [trimEnd] leaves alone does not end with white space. *)
Lemma trimEnd_fixed (s : string) (c : ascii) :
  trimEnd (s ++ String c "") = s ++ String c "" -> isWhiteSpace c = false.
Proof.
  induction s as [|d s IH]; rewrite ?append_empty, ?append_cons; cbn [trimEnd].
  - destruct (isWhiteSpace c); cbn; [discriminate | reflexivity].
  - intros H. case_match; [discriminate|]. injection H as H. auto.
Qed.

(** What [transcribeImage] resolves to neither starts nor ends with white
    space, and it is the empty string exactly when the model's text is not
    empty and is white space throughout. *)
Theorem transcribeImage_resolves_trimmed (b : option string)
    (api : GenerateContent) (r : string) :
  transcribeImage b api = Resolved r ->
  (forall c s, r = String c s -> isWhiteSpace c = false)
  /\ (forall s c, r = s ++ String c "" -> isWhiteSpace c = false)
  /\ (r = "" <->
      exists text,
        api = Resolved (Some text) /\ text <> ""
        /\ Forall (fun c => isWhiteSpace c = true) (list_ascii_of_string text)).
Proof.
  intros H.
  assert (trimStart r = r /\ trimEnd r = r) as [Hs He].
  { unfold transcribeImage in H. destruct api as [[text|]|e]; [| |discriminate].
    - destruct (truthy text); cbn in H; injection H as <-;
        [split; [apply trimStart_trim | apply trimEnd_trim] | split; reflexivity].
    - injection H as <-. split; reflexivity. }
  split; [|split; [|split]].
  - intros c s ->. exact (trimStart_fixed c s Hs).
  - intros s c ->. exact (trimEnd_fixed s c He).
  - intros ->. apply transcribeImage_empty_iff in H as (text & -> & Hne & Ht).
    exists text. rewrite <- trim_empty_iff. auto.
  - intros (text & -> & Hne & Hws).
    rewrite (transcribeImage_blank b text Hne Hws) in H. congruence.
Qed.

Lemma transcribeImage_resolves_trimmed_witness :
  transcribeImage None (Resolved (Some "  Hello, world  "))
  = Resolved "Hello, world"
  /\ isWhiteSpace "H" = false
  /\ isWhiteSpace "d" = false.
Proof.
  destruct (transcribeImage_resolves_trimmed None
              (Resolved (Some "  Hello, world  ")) "Hello, world" eq_refl)
    as (Hs & He & _).
  split; [reflexivity|]. split.
  - exact (Hs "H"%char "ello, world" eq_refl).
  - exact (He "Hello, worl" "d"%char eq_refl).
Defined.

(** ** The image handed to the service *)

Lemma split_comma_cons (s : string) : exists p ps, split_comma s = p :: ps.
Proof.
  induction s as [|c s (p & ps & IH)]; cbn; [eauto|].
  destruct (Ascii.eqb c ","); [eauto|]. rewrite IH. eauto.
Qed.

Lemma split_comma_no_comma (s : string) :
  has_comma s = false -> split_comma s = [s].
Proof.
  induction s as [|c s IH]; cbn; [reflexivity|].
  destruct (Ascii.eqb c ","); cbn; [discriminate|].
  intros H. rewrite (IH H). reflexivity.
Qed.

(** Splitting at the first comma. *)
Lemma split_comma_app (p q : string) :
  has_comma p = false ->
  split_comma (p ++ String "," q) = p :: split_comma q.
Proof.
  induction p as [|c p IH]; rewrite ?append_empty, ?append_cons;
    cbn [split_comma has_comma]; [reflexivity|].
  destruct (Ascii.eqb c ","); cbn [orb]; [discriminate|].
  intros H. rewrite (IH H). reflexivity.
Qed.

(** A snapshot that is taken (element ready, region of a pixel or more, a
    canvas) shows the data URL as the last screenshot and sends the service
    what lies between its first and its second comma: for a URL
    [header,payload] with no comma in the payload, the payload; for a URL
    without a comma, nothing (undefined). *)
Theorem snapshot_sends_payload (v : VideoReading) (crop : Rect.t)
    (dataUrl : string) (a : Component) :
  (2 <= readyState v)%Z ->
  cropArea a = Some crop ->
  (PrimFloat.ltb (sWidth (source_region v crop)) 1
   || PrimFloat.ltb (sHeight (source_region v crop)) 1)%bool = false ->
  let a' := handleTakeSnapshot (Some v) (Some dataUrl) a in
  lastScreenshot a' = Some dataUrl
  /\ status a' = Transcribing
  /\ error a' = None
  /\ (forall header payload,
        dataUrl = header ++ "," ++ payload ->
        has_comma header = false -> has_comma payload = false ->
        pendingTranscribe a' = (pendingTranscribe a ++ [Some payload])%list)
  /\ (has_comma dataUrl = false ->
        pendingTranscribe a' = (pendingTranscribe a ++ [None])%list).
Proof.
  intros Hready Hcrop Hsize a'.
  assert (a' = a ;> setStatus Transcribing ;> setError None
                 ;> set_drawn (drawn a ++ [source_region v crop])
                 ;> setLastScreenshot (Some dataUrl)
                 ;> set_pendingTranscribe
                      (pendingTranscribe a ++ [split_comma dataUrl !! 1%nat]))
    as ->.
  { subst a'. unfold handleTakeSnapshot.
    destruct (Z.ltb_spec (readyState v) 2); [lia|].
    rewrite Hcrop. cbv zeta. rewrite Hsize. reflexivity. }
  repeat split; cbn.
  - intros header payload -> Hh Hp.
    change (header ++ "," ++ payload) with (header ++ String "," payload).
    rewrite (split_comma_app header payload Hh), (split_comma_no_comma payload Hp).
    reflexivity.
  - intros Hn. rewrite (split_comma_no_comma dataUrl Hn). reflexivity.
Qed.

Lemma snapshot_sends_payload_witness :
  (2 <= readyState frame)%Z
  /\ cropArea region_selected = Some (Rect.mk 10 10 100 80)
  /\ png = "data:image/png;base64" ++ "," ++ "iVBORw0KGgo="
  /\ pendingTranscribe
       (handleTakeSnapshot (Some frame) (Some png) region_selected)
     = [Some "iVBORw0KGgo="].
Proof.
  split; [cbn; lia|]. split; [reflexivity|]. split; [reflexivity|].
  pose proof (snapshot_sends_payload frame (Rect.mk 10 10 100 80) png
                region_selected ltac:(cbn; lia) eq_refl eq_refl) as H.
  cbv zeta in H. destruct H as (_ & _ & _ & H & _).
  exact (H "data:image/png;base64" "iVBORw0KGgo=" eq_refl eq_refl eq_refl).
Defined.

(** ** The accumulated transcript *)

Lemma run_app (ok : Event -> Component -> bool) (es1 es2 : list Event) :
  forall a, run ok (es1 ++ es2) a = run ok es1 a ≫= run ok es2.
Proof.
  induction es1 as [|e es1 IH]; intros a; cbn; [reflexivity|].
  destruct (ok e a); [|reflexivity].
  destruct (step e a) as [a1|]; cbn; [apply IH | reflexivity].
Qed.

Lemma save_snippet_run (entry : string * string) (t : string)
    (d : list DrawImage) :
  run in_phase (save_snippet entry) (streaming_with t d)
  = Some (streaming_with (with_snippet t (snd entry))
            (d ++ [{| sx := 20; sy := 20; sWidth := 200; sHeight := 160 |}])).
Proof. destruct entry as [[|c text] s]; vm_compute; reflexivity. Qed.

Lemma save_snippets_run (entries : list (string * string)) :
  forall t d,
    run in_phase (flat_map save_snippet entries) (streaming_with t d)
    = Some (streaming_with (fold_left with_snippet (map snd entries) t)
              (d ++ replicate (length entries)
                      {| sx := 20; sy := 20; sWidth := 200; sHeight := 160 |})).
Proof.
  induction entries as [|entry entries IH]; intros t d.
  - cbn. rewrite app_nil_r. reflexivity.
  - cbn [flat_map]. rewrite run_app, save_snippet_run. cbn [mbind option_bind].
    rewrite IH. cbn [map fold_left length replicate].
    rewrite <- app_assoc. reflexivity.
Qed.

Lemma append_assoc (s t u : string) : (s ++ t) ++ u = s ++ t ++ u.
Proof.
  induction s as [|c s IH]; rewrite ?append_empty, ?append_cons;
    [reflexivity | f_equal; exact IH].
Qed.

(** Joining non-empty snippets. *)
Lemma fold_with_snippet_concat (snippets : list string) :
  forall prev,
    prev <> "" -> Forall (fun s => s <> "") snippets ->
    fold_left with_snippet snippets prev
    = String.concat (LF ++ LF) (prev :: snippets).
Proof.
  induction snippets as [|s snippets IH]; intros prev Hprev Hall;
    [reflexivity|].
  apply Forall_cons in Hall as [Hs Hall]. cbn [fold_left].
  assert (with_snippet prev s = prev ++ (LF ++ LF) ++ s) as ->.
  { unfold with_snippet, truthy.
    destruct (String.eqb_spec prev ""); [contradiction | reflexivity]. }
  rewrite IH; [|destruct prev; [contradiction | discriminate] | assumption].
  destruct snippets as [|s' snippets]; cbn [String.concat]; [reflexivity|].
  rewrite !append_assoc. reflexivity.
Qed.

(** The transcript is the saved snippets in order, joined by a blank line.
    From a first selection, every further snippet (snapshot, text from the
    service, edit, save) is accepted and is appended with [with_snippet]; when
    no snippet is empty, the transcript is their concatenation with two line
    feeds in between. *)
Theorem transcript_joins_snippets (entries : list (string * string)) :
  exists a,
    run in_phase (selecting ++ flat_map save_snippet entries) initial = Some a
    /\ status a = Streaming
    /\ currentSnippet a = ""
    /\ lastScreenshot a = None
    /\ transcription a = fold_left with_snippet (map snd entries) ""
    /\ (Forall (fun s => s <> "") (map snd entries) ->
        transcription a = String.concat (LF ++ LF) (map snd entries)).
Proof.
  eexists. split.
  { rewrite run_app, region_selected_reached. cbn [mbind option_bind].
    change region_selected with (streaming_with "" []).
    apply save_snippets_run. }
  repeat split. cbn.
  destruct entries as [|[text s] entries]; cbn [map fold_left]; [reflexivity|].
  intros [Hs Hall]%Forall_cons. change (with_snippet "" s) with s.
  apply fold_with_snippet_concat; assumption.
Qed.

(** Three snippets; the texts of the service are edited before the save. *)
Lemma transcript_joins_snippets_witness :
  exists a,
    run in_phase
      (selecting
       ++ flat_map save_snippet [("a ", "A"); ("b", "B"); ("", "C")]) initial
    = Some a
    /\ transcription a = "A" ++ LF ++ LF ++ "B" ++ LF ++ LF ++ "C".
Proof.
  destruct (transcript_joins_snippets [("a ", "A"); ("b", "B"); ("", "C")])
    as (a & Hrun & _ & _ & _ & _ & H).
  exists a. split; [exact Hrun|]. apply H. repeat constructor; discriminate.
Defined.

(** ** Editing the transcript *)

Lemma step_offered (e : Event) (a : Component) :
  offered e a = true -> step e a = Some (commit (status a) (handle e a)).
Proof. unfold step. intros ->. reflexivity. Qed.

(** While the draft is edited the component stays as it is but for the
    draft, which is the last value typed. *)
Lemma edit_drafts_run (drafts : list string) :
  forall a : Component,
    status a = Success -> isEditing a = true ->
    exists a',
      run in_phase (map ChangeEdited drafts) a = Some a'
      /\ status a' = Success
      /\ isEditing a' = true
      /\ transcription a' = transcription a
      /\ editedTranscription a' = default (editedTranscription a) (last drafts).
Proof.
  induction drafts as [|v drafts IH]; intros a Hst Hed.
  - exists a. repeat split; assumption.
  - cbn [map run in_phase].
    rewrite step_offered
      by (cbn [offered]; rewrite panels_unfold, Hst, Hed; reflexivity).
    cbn [mbind option_bind].
    destruct (IH (commit (status a) (handle (ChangeEdited v) a)))
      as (a' & Hrun & Hst' & Hed' & Ht & He).
    { rewrite commit_hooks. exact Hst. }
    { rewrite commit_hooks. exact Hed. }
    exists a'. rewrite commit_hooks in Ht, He. cbn in Ht, He.
    repeat split; try assumption.
    rewrite He, last_cons. destruct (last drafts); reflexivity.
Qed.

(** The editing sub-state of Success.  Edit opens a draft that starts as the
    transcript; Save Changes makes the last draft the transcript and Cancel
    leaves the transcript as it was, and both end the editing.  While the
    draft is open, neither Start New Session nor Edit, Copy or Download is
    offered.  After an empty draft has been saved, Edit, Copy and Download are
    not offered any more. *)
Theorem edit_saves_or_cancels (a : Component) (drafts : list string) :
  status a = Success -> truthy (transcription a) = true -> isEditing a = false ->
  let final := default (transcription a) (last drafts) in
  (exists a',
     run in_phase ([ClickEdit] ++ map ChangeEdited drafts ++ [ClickSaveChanges]) a
     = Some a'
     /\ status a' = Success /\ isEditing a' = false
     /\ transcription a' = final
     /\ (final = "" ->
         offered ClickEdit a' = false /\ offered ClickCopy a' = false
         /\ offered ClickDownload a' = false))
  /\ (exists a',
        run in_phase ([ClickEdit] ++ map ChangeEdited drafts ++ [ClickCancel]) a
        = Some a'
        /\ status a' = Success /\ isEditing a' = false
        /\ transcription a' = transcription a)
  /\ (exists a',
        run in_phase ([ClickEdit] ++ map ChangeEdited drafts) a = Some a'
        /\ offered ClickStartNewSession a' = false
        /\ offered ClickEdit a' = false /\ offered ClickCopy a' = false
        /\ offered ClickDownload a' = false).
Proof.
  intros Hst Ht Hed final.
  assert (step ClickEdit a
          = Some (commit (status a) (handle ClickEdit a))) as Hstep.
  { apply step_offered. cbn [offered].
    rewrite panels_unfold, Hst, Ht, Hed. reflexivity. }
  destruct (edit_drafts_run drafts (commit (status a) (handle ClickEdit a)))
    as (a1 & Hrun & Hst1 & Hed1 & Ht1 & He1).
  { rewrite commit_hooks. exact Hst. }
  { rewrite commit_hooks. reflexivity. }
  rewrite commit_hooks in Ht1, He1. cbn in Ht1, He1. fold final in He1.
  assert (forall e,
            offered e a1 = true ->
            run in_phase ([ClickEdit] ++ map ChangeEdited drafts ++ [e]) a
            = (if in_phase e a1 then Some (commit (status a1) (handle e a1))
               else None)) as Hlast.
  { intros e He. cbn [app run in_phase]. rewrite Hstep. cbn [mbind option_bind].
    rewrite run_app, Hrun. cbn [mbind option_bind run].
    rewrite (step_offered e a1 He). destruct (in_phase e a1); reflexivity. }
  split; [|split].
  - eexists. split.
    { rewrite Hlast; [reflexivity|].
      cbn [offered]. rewrite panels_unfold, Hst1, Hed1. reflexivity. }
    rewrite !commit_hooks. cbn.
    split; [exact Hst1|]. split; [reflexivity|]. split; [exact He1|].
    intros Hf. cbn [offered]. rewrite panels_unfold, !commit_hooks. cbn.
    rewrite He1, Hf. cbn. rewrite !andb_false_r. repeat split.
  - eexists. split.
    { rewrite Hlast; [reflexivity|].
      cbn [offered]. rewrite panels_unfold, Hst1, Hed1. reflexivity. }
    rewrite !commit_hooks. cbn. repeat split; assumption.
  - exists a1. split.
    { cbn [app run in_phase]. rewrite Hstep. exact Hrun. }
    cbn [offered]. unfold controls. rewrite panels_unfold, Hst1, Hed1. cbn.
    rewrite !andb_false_r. repeat split.
Qed.

(** The transcript "A" is edited to "A. B" in two steps and saved, or the
    edit is cancelled. *)
Lemma edit_saves_or_cancels_witness :
  status in_success = Success
  /\ truthy (transcription in_success) = true
  /\ isEditing in_success = false
  /\ (exists a',
        run in_phase ([ClickEdit; ChangeEdited "A."; ChangeEdited "A. B";
                       ClickSaveChanges]) in_success = Some a'
        /\ transcription a' = "A. B" /\ isEditing a' = false)
  /\ (exists a',
        run in_phase ([ClickEdit; ChangeEdited "A."; ChangeEdited "A. B";
                       ClickCancel]) in_success = Some a'
        /\ transcription a' = "A" /\ isEditing a' = false).
Proof.
  split; [reflexivity|]. split; [reflexivity|]. split; [reflexivity|].
  destruct (edit_saves_or_cancels in_success ["A."; "A. B"]
              eq_refl eq_refl eq_refl)
    as ((a1 & Hrun1 & _ & He1 & Ht1 & _) & (a2 & Hrun2 & _ & He2 & Ht2) & _).
  split; [exists a1 | exists a2]; repeat split; assumption.
Defined.

(** ** The crop area, the copy indicator and the idle state *)

(** An absolute value is never below zero. *)
Lemma abs_not_negative (x : float) : PrimFloat.ltb (abs x) 0 = false.
Proof.
  rewrite ltb_spec, abs_spec.
  change (Prim2SF 0) with (S754_zero false).
  destruct (Prim2SF x) as [s| s| |s m e]; reflexivity.
Qed.

Ltac split_tests :=
  repeat match goal with
         | H : (_ || _)%bool = false |- _ => apply orb_false_elim in H as [? ?]
         | H : (_ && _)%bool = true |- _ => apply andb_prop in H as [? ?]
         | H : bool_decide _ = true |- _ => apply bool_decide_eq_true in H
         | H : bool_decide _ = false |- _ => apply bool_decide_eq_false in H
         | H : negb _ = true |- _ => apply negb_true_iff in H
         | H : negb _ = false |- _ => apply negb_false_iff in H
         end.

Lemma handle_hooks_tidy (e : Event) (a : Component) :
  offered e a = true -> hooks_tidy a -> hooks_tidy (handle e a).
Proof.
  intros Hoff (H1 & H2 & H3).
  split; [|split];
    destruct e; cbn [handle offered] in *; read_offer Hoff; run_handler.
  all: try (intros; simplify_eq/=; done).
  all: split_tests.
  all: try solve [intuition (simplify_eq/=; auto using abs_not_negative; congruence)].
  all: intros; simplify_eq/=;
    repeat match goal with
           | H : forall c, Some ?t = Some c -> _ |- _ => specialize (H t eq_refl)
           | H : forall c, ?x = Some c -> _, H' : ?x = Some ?t |- _ =>
               specialize (H t H')
           | H : ?P -> forall c, Some ?t = Some c -> _, H' : ?P |- _ =>
               specialize (H H' t eq_refl)
           | H : ?P -> forall c, ?x = Some c -> _, H' : ?P, H'' : ?x = Some ?t
             |- _ => specialize (H H' t H'')
           end;
    intuition (simplify_eq/=; auto using abs_not_negative; congruence).
Qed.

Lemma stopStream_pendingTimers (a : Component) :
  pendingTimers (stopStream a) = pendingTimers a.
Proof. unfold stopStream. repeat case_match; reflexivity. Qed.

Lemma stopStream_pendingTranscribe (a : Component) :
  pendingTranscribe (stopStream a) = pendingTranscribe a.
Proof. unfold stopStream. repeat case_match; reflexivity. Qed.

Lemma stopStream_streams (a : Component) :
  streams (stopStream a)
  = match streamRef a with
    | Some i => alter (fmap stop) i (streams a)
    | None => streams a
    end.
Proof. unfold stopStream. repeat case_match; reflexivity. Qed.

Lemma stopStream_streams_length (a : Component) :
  length (streams (stopStream a)) = length (streams a).
Proof.
  rewrite stopStream_streams. destruct (streamRef a); [|reflexivity].
  apply length_alter.
Qed.

(** The handlers once more, with what they do to the refs and the
    environment. *)
Ltac run_handler_env :=
  run_handler;
  rewrite ?stopStream_streamRef, ?stopStream_pendingTimers,
    ?stopStream_pendingTranscribe, ?stopStream_pending,
    ?stopStream_streams_length, ?length_alter, ?length_app in *;
  cbn in *.

Lemma handle_copy_tidy (e : Event) (a : Component) :
  copy_tidy a -> copy_tidy (handle e a).
Proof.
  unfold copy_tidy. intros H.
  destruct e; cbn [handle]; run_handler_env; auto; try discriminate; lia.
Qed.

Lemma handle_stream_tidy (e : Event) (a : Component) :
  offered e a = true -> stream_tidy a -> stream_tidy (handle e a).
Proof.
  intros Hoff [H1 H2].
  split; destruct e; cbn [handle offered] in *; read_offer Hoff;
    run_handler_env.
  all: try (intros; simplify_eq/=; done).
  all: split_tests.
  all: intuition (simplify_eq/=; auto; try congruence; try lia).
Qed.

(** ** Streams are released *)

Lemma others_released_ext (a b : Component) :
  streams b = streams a -> streamRef b = streamRef a ->
  others_released a -> others_released b.
Proof. unfold others_released. intros -> ->. trivial. Qed.

Lemma ended_alter (f : MediaStreamTrack -> MediaStreamTrack)
    (m : list MediaStreamTrack) (j : nat) :
  (forall t, track_state t = ended -> track_state (f t) = ended) ->
  Forall (fun t => track_state t = ended) m ->
  Forall (fun t => track_state t = ended) (alter f j m).
Proof. intros Hf Hm. apply Forall_alter; [assumption|]. auto. Qed.

(** After [stopStream] every stream is released, if the others were. *)
Lemma stopStream_all_released (a : Component) :
  others_released a ->
  forall j (m : list MediaStreamTrack),
    streams (stopStream a) !! j = Some m ->
    Forall (fun t => track_state t = ended) m.
Proof.
  intros H j m. rewrite stopStream_streams.
  destruct (streamRef a) as [i|] eqn:Hi.
  - destruct (decide (i = j)) as [->|Hne].
    + rewrite list_lookup_alter_eq. destruct (streams a !! j) as [m0|]; cbn;
        [|discriminate].
      intros [= <-]. apply Forall_fmap, Forall_true. reflexivity.
    + rewrite list_lookup_alter_ne by assumption. intros Hm.
      apply (H j m Hm). congruence.
  - intros Hm. apply (H j m Hm). congruence.
Qed.

Lemma stopStream_others_released (a : Component) :
  others_released a -> others_released (stopStream a).
Proof. intros H j m Hm _. exact (stopStream_all_released a H j m Hm). Qed.

Lemma handleStartNewSession_others_released (a : Component) :
  others_released a -> others_released (handleStartNewSession a).
Proof.
  intros H. apply (others_released_ext (stopStream a));
    [reflexivity | reflexivity | apply stopStream_others_released, H].
Qed.

Lemma handleEndSession_others_released (cl : EndSessionClosure)
    (a : Component) :
  others_released a -> others_released (handleEndSession cl a).
Proof.
  intros H. unfold handleEndSession. case_match.
  - apply (stopStream_others_released a H).
  - apply handleStartNewSession_others_released, stopStream_others_released, H.
Qed.

Lemma end_track_others_released (i j : nat) (a : Component) :
  others_released a -> others_released (end_track i j a).
Proof.
  intros H k m. unfold end_track. cbn.
  destruct (decide (i = k)) as [->|Hne].
  - rewrite list_lookup_alter_eq.
    destruct (streams a !! k) as [m0|] eqn:Hk; cbn; [|discriminate].
    intros [= <-] Href. apply ended_alter; [auto | exact (H k m0 Hk Href)].
  - rewrite list_lookup_alter_ne by assumption. apply H.
Qed.

Lemma handleStartCapture_catch_others_released (err : Exception)
    (a : Component) :
  others_released a -> others_released (handleStartCapture_catch err a).
Proof.
  intros H. unfold handleStartCapture_catch. case_match; [|exact H].
  apply handleStartNewSession_others_released, H.
Qed.

(** A new stream becomes the one held: the others stay released when no
    stream was held before. *)
Lemma handleStartCapture_settled_others_released (cl : EndSessionClosure)
    (r : Settled nat Exception) (a : Component) :
  streamRef a = None -> others_released a ->
  others_released (handleStartCapture_settled cl r a).
Proof.
  intros Hnone H. unfold handleStartCapture_settled.
  destruct r as [n|err]; [|apply handleStartCapture_catch_others_released, H].
  set (new := replicate n {| track_state := live; onended := None |}).
  assert (others_released
            (a ;> set_streams (streams a ++ [new])
               ;> set_streamRef (Some (length (streams a))))) as Hnew.
  { intros j m. cbn. intros Hm Href.
    destruct (decide (j < length (streams a))) as [Hlt|Hge].
    - rewrite lookup_app_l in Hm by assumption.
      apply (H j m Hm). rewrite Hnone. discriminate.
    - assert (j = length (streams a)) as ->; [|congruence].
      apply lookup_lt_Some in Hm. rewrite length_app in Hm. cbn in Hm. lia. }
  destruct n as [|n].
  - apply handleStartCapture_catch_others_released, Hnew.
  - intros j m. cbn -[replicate]. intros Hm Href.
    rewrite list_lookup_alter_ne in Hm by congruence.
    apply (Hnew j m Hm Href).
Qed.

Ltac same_streams H :=
  eapply others_released_ext; [ | | exact H];
  repeat (first [progress cbn | case_match]); reflexivity.

Lemma handle_others_released (e : Event) (a : Component) :
  offered e a = true -> in_phase e a = true ->
  stream_tidy a -> others_released a -> others_released (handle e a).
Proof.
  intros Hoff Hph [Hst _] H.
  destruct e; cbn [handle offered in_phase] in *; try discriminate.
  - same_streams H.
  - destruct (pendingDisplayMedia a !! k) as [cl|]; [|exact H].
    apply bool_decide_eq_true in Hph.
    apply handleStartCapture_settled_others_released; [|exact H].
    apply Hst. auto.
  - destruct (get_track stream track a ≫= onended).
    + apply handleEndSession_others_released, end_track_others_released, H.
    + apply end_track_others_released, H.
  - same_streams H.
  - unfold handleMouseMove. same_streams H.
  - unfold handleMouseUp. same_streams H.
  - unfold handleMouseLeave, handleMouseUp. same_streams H.
  - unfold handleTakeSnapshot, not_ready. same_streams H.
  - unfold handleTakeSnapshot_settled. same_streams H.
  - same_streams H.
  - same_streams H.
  - same_streams H.
  - apply handleEndSession_others_released, H.
  - apply handleStartNewSession_others_released, H.
  - same_streams H.
  - same_streams H.
  - same_streams H.
  - same_streams H.
  - unfold handleCopy. same_streams H.
  - same_streams H.
  - same_streams H.
  - same_streams H.
Qed.

Lemma handle_in_flight (e : Event) (a : Component) :
  offered e a = true -> in_phase e a = true ->
  in_flight a -> in_flight (handle e a).
Proof.
  intros Hoff Hph (H1 & H2 & H3).
  destruct e; cbn [in_phase] in Hph; try discriminate.
  all: split; [|split]; cbn [handle offered] in *; read_offer Hoff;
    run_handler_env.
  all: try (intros; simplify_eq/=; done).
  all: split_tests.
  all: intuition (simplify_eq/=; eauto; try congruence;
                  try (eapply app_cons_not_nil; eauto)).
Qed.

Ltac in_list :=
  rewrite ?elem_of_cons, ?elem_of_nil in *;
  intuition (try discriminate; try congruence).

(** A track that can still end belongs to the stream that is held, and a
    stream is held only in a session or in Error. *)
Lemma track_ended_offered_held (a : Component) (i j : nat) :
  stream_tidy a -> others_released a ->
  offered (TrackEnded i j) a = true ->
  streamRef a = Some i
  /\ status a ∈ [Streaming; Transcribing; Reviewing; Error].
Proof.
  intros [Hst _] Hrel Hoff. cbn [offered] in Hoff. unfold get_track in Hoff.
  destruct (streams a !! i) as [m|] eqn:Hi; [|discriminate].
  destruct (m !! j) as [t|] eqn:Hj; [|discriminate].
  destruct (track_state t) eqn:Ht; [|discriminate].
  assert (streamRef a = Some i) as Href.
  { destruct (decide (streamRef a = Some i)) as [|Hne]; [assumption|].
    pose proof (proj1 (Forall_lookup _ _) (Hrel i m Hi Hne) j t Hj) as He.
    cbn in He. congruence. }
  split; [exact Href|].
  destruct (status a) eqn:Hs; try (rewrite Hst in Href by auto; discriminate);
    in_list.
Qed.

Lemma handle_editing_in_success (e : Event) (a : Component) :
  offered e a = true -> in_phase e a = true ->
  idle_is_clean a -> stream_tidy a -> others_released a ->
  editing_in_success a -> editing_in_success (handle e a).
Proof.
  unfold editing_in_success. intros Hoff Hph Hinv Hst Hrel H.
  destruct e; cbn [in_phase] in Hph; try discriminate Hph.
  3: { lazymatch type of Hoff with
       | offered (TrackEnded ?i ?j) _ = _ =>
           destruct (track_ended_offered_held a i j Hst Hrel Hoff) as [_ Hin];
           destruct (get_track i j a ≫= onended) as [cl|] eqn:Hcl;
           [ rewrite (track_ended_resets a i j cl Hinv Hcl); discriminate
           | cbn [handle]; rewrite Hcl; cbn; intros Hed;
             rewrite (H Hed) in Hin; in_list ]
       end. }
  all: cbn [handle offered] in *; read_offer Hoff; run_handler.
  all: try (intros; simplify_eq/=; done).
  all: split_tests.
  all: intuition (simplify_eq/=; auto; congruence).
Qed.

(** The commit keeps what the invariants speak of. *)
Lemma commit_reachable_inv (p : Status) (a : Component) :
  reachable_inv a -> reachable_inv (commit p a).
Proof.
  unfold reachable_inv, idle_is_clean, closures_stale, hooks_tidy, copy_tidy,
    stream_tidy.
  rewrite commit_hooks, commit_env, commit_streamRef. trivial.
Qed.

Lemma commit_in_phase_inv (p : Status) (a : Component) :
  in_phase_inv a -> in_phase_inv (commit p a).
Proof.
  intros (Hr & H). split; [apply commit_reachable_inv, Hr|]. revert H.
  unfold snippet_in_review, others_released, in_flight, editing_in_success.
  rewrite commit_hooks, commit_env, commit_streamRef. trivial.
Qed.

Lemma initial_in_phase_inv : in_phase_inv initial.
Proof.
  split; [split; [exact initial_idle_is_clean|]|].
  - split; [|split; [|split]].
    + split; [intros _; repeat split|]. split; [discriminate|]. discriminate.
    + discriminate.
    + intros _. reflexivity.
    + discriminate.
  - split; [exact initial_snippet_in_review|]. split; [|split].
    + intros j m. cbn. discriminate.
    + repeat split; discriminate.
    + discriminate.
Qed.

Lemma handle_reachable_inv (e : Event) (a : Component) :
  offered e a = true -> reachable_inv a -> reachable_inv (handle e a).
Proof.
  intros Hoff (H1 & H2 & H3 & H4). split; [|split; [|split]].
  - apply handle_idle_is_clean; assumption.
  - apply handle_hooks_tidy; assumption.
  - apply handle_copy_tidy; assumption.
  - apply handle_stream_tidy; assumption.
Qed.

Lemma step_reachable_inv (e : Event) (a a' : Component) :
  step e a = Some a' -> reachable_inv a -> reachable_inv a'.
Proof.
  intros [Hoff ->]%step_Some H.
  apply commit_reachable_inv, handle_reachable_inv; assumption.
Qed.

Lemma step_in_phase_inv (e : Event) (a a' : Component) :
  step e a = Some a' -> in_phase e a = true ->
  in_phase_inv a -> in_phase_inv a'.
Proof.
  intros [Hoff ->]%step_Some Hph (Hr & H1 & H2 & H3 & H4).
  pose proof Hr as (Hc & _ & _ & Hs).
  apply commit_in_phase_inv. split; [|split; [|split; [|split]]].
  - apply handle_reachable_inv; assumption.
  - apply handle_snippet_in_review; assumption.
  - apply handle_others_released; assumption.
  - apply handle_in_flight; assumption.
  - apply handle_editing_in_success; assumption.
Qed.

Lemma run_reachable_inv (ok : Event -> Component -> bool) (es : list Event) :
  forall a a', run ok es a = Some a' -> reachable_inv a -> reachable_inv a'.
Proof.
  induction es as [|e es IH]; cbn; intros a a' Hrun Hinv.
  - injection Hrun as <-. exact Hinv.
  - destruct (ok e a); [|discriminate].
    destruct (step e a) as [a1|] eqn:Hstep; [|discriminate]. cbn in Hrun.
    eapply IH; [exact Hrun|]. eapply step_reachable_inv; eassumption.
Qed.

Lemma run_in_phase_inv (es : list Event) :
  forall a a', run in_phase es a = Some a' -> in_phase_inv a -> in_phase_inv a'.
Proof.
  induction es as [|e es IH]; cbn; intros a a' Hrun Hinv.
  - injection Hrun as <-. exact Hinv.
  - destruct (in_phase e a) eqn:Hph; [|discriminate].
    destruct (step e a) as [a1|] eqn:Hstep; [|discriminate]. cbn in Hrun.
    eapply IH; [exact Hrun|]. eapply step_in_phase_inv; eassumption.
Qed.

(** ** The transitions of the session *)

Lemma handle_transition (e : Event) (a : Component) :
  offered e a = true -> in_phase e a = true ->
  idle_is_clean a -> stream_tidy a -> others_released a ->
  editing_in_success a ->
  transition e (status a) (status (handle e a)) = true.
Proof.
  intros Hoff Hph Hinv Hst Hrel Hed.
  destruct e; cbn [in_phase] in Hph; try discriminate Hph.
  3: { lazymatch type of Hoff with
       | offered (TrackEnded ?i ?j) _ = _ =>
           destruct (track_ended_offered_held a i j Hst Hrel Hoff) as [_ Hin];
           cbn [transition]; apply bool_decide_eq_true; split; [exact Hin|];
           destruct (get_track i j a ≫= onended) as [cl|] eqn:Hcl;
           [ rewrite (track_ended_resets a i j cl Hinv Hcl); right; reflexivity
           | cbn [handle]; rewrite Hcl; left; reflexivity ]
       end. }
  all: unfold editing_in_success in Hed;
    cbn [handle offered] in *; read_offer Hoff; run_handler.
  all: split_tests; simplify_eq/=.
  all: try (destruct (status a) eqn:?; simplify_eq/=).
  all: try (apply bool_decide_eq_true).
  all: try solve [in_list].
  all: try (rewrite ?andb_false_r in Hoff; discriminate Hoff).
  all: repeat match goal with
              | H : _ = true |- context [if _ then _ else _] => rewrite H
              | H : _ = false |- context [if _ then _ else _] => rewrite H
              end; cbn; auto.
Qed.

Lemma in_success_reached :
  run in_phase (reviewing "A" ++ [ClickSaveAndContinue; ClickEndSession]) initial
  = Some in_success.
Proof. vm_compute. reflexivity. Qed.

Lemma copied_reached :
  run in_phase
    (reviewing "A"
     ++ [ClickSaveAndContinue; ClickEndSession; ClickCopy; ClipboardWritten])
    initial = Some copied.
Proof. vm_compute. reflexivity. Qed.

Lemma idle_again_reached :
  run in_phase
    (reviewing "A"
     ++ [ClickSaveAndContinue; ClickEndSession; ClickStartNewSession]) initial
  = Some idle_again.
Proof. vm_compute. reflexivity. Qed.

Lemma initial_reachable_inv : reachable_inv initial.
Proof. exact (proj1 initial_in_phase_inv). Qed.

(** The session follows its transitions.  Along every sequence of events in
    phase, each event takes the status only where [transition] allows: Success
    and Error are left only for Idle, Reviewing only for Streaming or Idle,
    and a snapshot never leaves Streaming for anything but Transcribing or
    Error. *)
Theorem session_follows_transitions (es : list Event) (e : Event)
    (a a' : Component) :
  run in_phase es initial = Some a ->
  in_phase e a = true ->
  step e a = Some a' ->
  transition e (status a) (status a') = true.
Proof.
  intros Hrun Hph [Hoff ->]%step_Some. rewrite commit_hooks.
  destruct (run_in_phase_inv es initial a Hrun initial_in_phase_inv)
    as ((Hc & _ & _ & Hs) & _ & Hrel & _ & Hed).
  apply handle_transition; assumption.
Qed.

Lemma session_follows_transitions_witness :
  run in_phase (reviewing "A") initial = Some in_review
  /\ in_phase ClickSaveAndContinue in_review = true
  /\ step ClickSaveAndContinue in_review = Some saved_A
  /\ status in_review = Reviewing
  /\ status saved_A = Streaming
  /\ transition ClickSaveAndContinue Reviewing Streaming = true.
Proof.
  split; [exact in_review_reached|]. split; [reflexivity|].
  assert (step ClickSaveAndContinue in_review = Some saved_A) as Hstep
    by (vm_compute; reflexivity).
  split; [exact Hstep|]. split; [reflexivity|]. split; [reflexivity|].
  exact (session_follows_transitions (reviewing "A") ClickSaveAndContinue
           in_review saved_A in_review_reached eq_refl Hstep).
Defined.

(** ** What the reachable states look like *)

(** Idle is a clean slate: however the session got there, there is no
    transcript, snippet, screenshot, error or crop area, nothing is being
    edited or selected, and no stream is held. *)
Theorem idle_is_a_clean_slate (es : list Event) (a : Component) :
  run any_order es initial = Some a ->
  status a = Idle ->
  transcription a = "" /\ currentSnippet a = "" /\ lastScreenshot a = None
  /\ error a = None /\ cropArea a = None
  /\ isEditing a = false /\ isSelecting a = false
  /\ streamRef a = None.
Proof.
  intros Hrun Hst.
  destruct (run_reachable_inv any_order es initial a Hrun initial_reachable_inv)
    as ((H1 & H2 & _) & (H3 & _) & _ & (H4 & _)).
  destruct (H1 (or_introl Hst)) as [? ?]. destruct (H2 Hst) as [? ?].
  destruct (H3 Hst) as (? & ? & ?).
  repeat split; auto.
Qed.

Lemma idle_is_a_clean_slate_witness :
  run any_order
    (reviewing "A"
     ++ [ClickSaveAndContinue; ClickEndSession; ClickStartNewSession]) initial
  = Some idle_again
  /\ status idle_again = Idle
  /\ transcription idle_again = ""
  /\ streamRef idle_again = None.
Proof.
  assert (run any_order
            (reviewing "A"
             ++ [ClickSaveAndContinue; ClickEndSession; ClickStartNewSession])
            initial = Some idle_again) as Hrun
    by (apply run_in_phase_any_order, idle_again_reached).
  destruct (idle_is_a_clean_slate _ _ Hrun eq_refl)
    as (Ht & _ & _ & _ & _ & _ & _ & Hs).
  split; [exact Hrun|]. split; [reflexivity|]. split; assumption.
Defined.

(** A crop area is a selection: its width and height are never negative,
    and once the drag is over neither is below 10. *)
Theorem crop_area_is_a_selection (es : list Event) (a : Component)
    (crop : Rect.t) :
  run any_order es initial = Some a ->
  cropArea a = Some crop ->
  PrimFloat.ltb (Rect.width crop) 0 = false
  /\ PrimFloat.ltb (Rect.height crop) 0 = false
  /\ (isSelecting a = false ->
      PrimFloat.ltb (Rect.width crop) 10 = false
      /\ PrimFloat.ltb (Rect.height crop) 10 = false).
Proof.
  intros Hrun Hcrop.
  destruct (run_reachable_inv any_order es initial a Hrun initial_reachable_inv)
    as (_ & (_ & H1 & H2) & _).
  destruct (H1 crop Hcrop). repeat split; try assumption; apply H2; assumption.
Qed.

Lemma crop_area_is_a_selection_witness :
  let upwards :=
    [ClickStartCapture; DisplayMediaSettled 0 (Resolved 1);
     MouseDown 210 140 100 50; MouseMove 110 60 100 50] in
  run any_order upwards initial = Some (after upwards)
  /\ cropArea (after upwards) = Some (Rect.mk 10 10 100 80)
  /\ PrimFloat.ltb 100 0 = false /\ PrimFloat.ltb 80 0 = false.
Proof.
  intros upwards.
  assert (run any_order upwards initial = Some (after upwards)) as Hrun
    by (vm_compute; reflexivity).
  destruct (crop_area_is_a_selection upwards (after upwards)
              (Rect.mk 10 10 100 80) Hrun eq_refl) as (Hw & Hh & _).
  split; [exact Hrun|]. split; [reflexivity|]. split; assumption.
Defined.

(** The Copied indicator does not stay: whenever it is on, the timeout that
    turns it off is pending. *)
Theorem copied_indicator_times_out (es : list Event) (a : Component) :
  run any_order es initial = Some a ->
  isCopied a = true ->
  exists a', step CopiedTimeout a = Some a' /\ isCopied a' = false.
Proof.
  intros Hrun Hc.
  destruct (run_reachable_inv any_order es initial a Hrun initial_reachable_inv)
    as (_ & _ & H & _).
  specialize (H Hc). unfold step. cbn [offered].
  rewrite bool_decide_true by assumption.
  eexists. split; [reflexivity|]. rewrite commit_hooks. reflexivity.
Qed.

Lemma copied_indicator_times_out_witness :
  run any_order
    (reviewing "A"
     ++ [ClickSaveAndContinue; ClickEndSession; ClickCopy; ClipboardWritten])
    initial = Some copied
  /\ isCopied copied = true
  /\ exists a', step CopiedTimeout copied = Some a' /\ isCopied a' = false.
Proof.
  assert (run any_order
            (reviewing "A"
             ++ [ClickSaveAndContinue; ClickEndSession; ClickCopy;
                 ClipboardWritten]) initial = Some copied) as Hrun
    by (apply run_in_phase_any_order, copied_reached).
  split; [exact Hrun|]. split; [reflexivity|].
  exact (copied_indicator_times_out _ _ Hrun eq_refl).
Defined.

(** In phase, no stream outlives its session: while the status is Idle,
    Capturing or Success no stream is held, every track of every stream handed
    out is stopped, and no track can end any more. *)
Theorem streams_released_outside_session (es : list Event) (a : Component) :
  run in_phase es initial = Some a ->
  status a = Idle \/ status a = Capturing \/ status a = Success ->
  streamRef a = None
  /\ (forall j (m : list MediaStreamTrack),
        streams a !! j = Some m -> Forall (fun t => track_state t = ended) m)
  /\ (forall i j, offered (TrackEnded i j) a = false).
Proof.
  intros Hrun Hst.
  destruct (run_in_phase_inv es initial a Hrun initial_in_phase_inv)
    as ((_ & _ & _ & Hs) & _ & Hrel & _).
  pose proof (proj1 Hs Hst) as Hnone.
  split; [exact Hnone|]. split.
  - intros j m Hm. apply (Hrel j m Hm). rewrite Hnone. discriminate.
  - intros i j. destruct (offered (TrackEnded i j) a) eqn:Hoff; [|reflexivity].
    destruct (track_ended_offered_held a i j Hs Hrel Hoff) as [Href _].
    congruence.
Qed.

Lemma streams_released_outside_session_witness :
  run in_phase (reviewing "A" ++ [ClickSaveAndContinue; ClickEndSession]) initial
  = Some in_success
  /\ status in_success = Success
  /\ streamRef in_success = None
  /\ streams in_success
     = [[{| track_state := ended; onended := Some nothing_captured |}]]
  /\ offered (TrackEnded 0 0) in_success = false.
Proof.
  destruct (streams_released_outside_session _ _ in_success_reached
              (or_intror (or_intror eq_refl))) as (Href & _ & Hoff).
  split; [exact in_success_reached|]. split; [reflexivity|].
  split; [exact Href|]. split; [reflexivity | apply Hoff].
Defined.

(** In phase, a phase that waits has what it waits for: while Capturing an
    acquisition is pending, and settling it leaves Capturing; while
    Transcribing a transcription is pending and the snapshot is on screen, and
    settling it leads to Reviewing or back to Streaming. *)
Theorem waiting_phases_can_be_left (es : list Event) (a : Component) :
  run in_phase es initial = Some a ->
  (status a = Capturing ->
     forall r, exists a',
       step (DisplayMediaSettled 0 r) a = Some a' /\ status a' <> Capturing)
  /\ (status a = Transcribing ->
        is_Some (lastScreenshot a)
        /\ forall api, exists a',
             step (TranscribeSettled 0 api) a = Some a'
             /\ (status a' = Reviewing \/ status a' = Streaming)).
Proof.
  intros Hrun.
  pose proof (run_in_phase_inv es initial a Hrun initial_in_phase_inv) as Hinv.
  pose proof Hinv as ((Hc & _ & _ & Hs) & _ & Hrel & (H1 & H2 & _) & Hed).
  split.
  - intros Hst r. specialize (H1 Hst).
    destruct (pendingDisplayMedia a) as [|cl l] eqn:Hp; [contradiction|].
    assert (offered (DisplayMediaSettled 0 r) a = true) as Hoff.
    { cbn [offered]. rewrite Hp. reflexivity. }
    eexists. split; [apply step_offered, Hoff|]. rewrite commit_hooks.
    assert (in_phase (DisplayMediaSettled 0 r) a = true) as Hph.
    { cbn [in_phase]. apply bool_decide_eq_true, Hst. }
    pose proof (handle_transition _ a Hoff Hph Hc Hs Hrel Hed) as Ht.
    intros Hst'. rewrite Hst, Hst' in Ht.
    destruct r as [[|n]|err]; cbn in Ht;
      apply bool_decide_eq_true in Ht as [_ Ht]; [discriminate..|].
    destruct (_ || _)%bool; discriminate.
  - intros Hst. destruct (H2 Hst) as [Hp Hshot]. split; [exact Hshot|].
    intros api.
    destruct (pendingTranscribe a) as [|b l] eqn:Hpt; [contradiction|].
    assert (offered (TranscribeSettled 0 api) a = true) as Hoff.
    { cbn [offered]. rewrite Hpt. reflexivity. }
    eexists. split; [apply step_offered, Hoff|]. rewrite commit_hooks.
    assert (in_phase (TranscribeSettled 0 api) a = true) as Hph.
    { cbn [in_phase]. apply bool_decide_eq_true, Hst. }
    pose proof (handle_transition _ a Hoff Hph Hc Hs Hrel Hed) as Ht.
    destruct api; cbn in Ht; apply bool_decide_eq_true in Ht as [_ Ht]; auto.
Qed.

Lemma waiting_phases_can_be_left_witness :
  run in_phase (selecting ++ [ClickTakeSnapshot frame (Some png)]) initial
  = Some in_transcribing
  /\ status in_transcribing = Transcribing
  /\ is_Some (lastScreenshot in_transcribing)
  /\ exists a',
       step (TranscribeSettled 0 (Resolved (Some "A"))) in_transcribing = Some a'
       /\ (status a' = Reviewing \/ status a' = Streaming).
Proof.
  destruct (waiting_phases_can_be_left _ _ in_transcribing_reached)
    as [_ H].
  destruct (H eq_refl) as [Hshot Hstep].
  split; [exact in_transcribing_reached|]. split; [reflexivity|].
  split; [exact Hshot | apply Hstep].
Defined.

(** ** The preview *)

Lemma stopStream_videoRef (a : Component) :
  videoRef (stopStream a)
  = match videoRef a with
    | Some _ => Some {| srcObject := None; oncanplay := false; onerror := false |}
    | None => None
    end.
Proof. unfold stopStream. repeat case_match; cbn in *; congruence. Qed.

(** The commit of an inactive state has no preview element. *)
Lemma commit_inactive (p : Status) (h : Component) :
  isSessionActive h = false -> preview_bound (commit p h).
Proof.
  intros Hh. unfold preview_bound.
  assert (hooks (commit p h) = hooks h) as Hhooks by apply commit_hooks.
  rewrite isSessionActive_unfold in *. rewrite Hhooks.
  destruct (status h) eqn:Hs; try discriminate.
  all: unfold commit, attach_stream; rewrite isSessionActive_unfold, Hs; cbn;
    rewrite Hs; case_match; reflexivity.
Qed.

(** The commit leaves a bound element as it is. *)
Lemma commit_bound (p : Status) (h : Component) (i : nat) :
  isSessionActive h = true -> streamRef h = Some i ->
  videoRef h = Some {| srcObject := Some i; oncanplay := true; onerror := true |} ->
  preview_bound (commit p h).
Proof.
  intros Hh Hi Hv. unfold preview_bound.
  assert (hooks (commit p h) = hooks h) as Hhooks by apply commit_hooks.
  rewrite commit_streamRef. rewrite isSessionActive_unfold in *. rewrite Hhooks.
  destruct (status h) eqn:Hs; try discriminate.
  all: exists i; split; [exact Hi|].
  all: unfold commit, attach_stream; rewrite isSessionActive_unfold, Hs, Hv; cbn;
    rewrite ?Hs, ?Hv, ?Hi; cbn; repeat case_match; try reflexivity; try assumption.
  all: rewrite bool_decide_true in * by reflexivity; discriminate.
Qed.

(** The commit that starts the streaming mounts the element and the effect
    binds it. *)
Lemma commit_binds (p : Status) (h : Component) (i : nat) :
  status h = Streaming -> p <> Streaming -> streamRef h = Some i ->
  videoRef h = None ->
  preview_bound (commit p h).
Proof.
  intros Hs Hp Hi Hv. unfold preview_bound.
  assert (hooks (commit p h) = hooks h) as Hhooks by apply commit_hooks.
  rewrite commit_streamRef. rewrite isSessionActive_unfold, Hhooks, Hs.
  exists i. split; [exact Hi|].
  unfold commit, attach_stream. rewrite isSessionActive_unfold, Hs, Hv. cbn.
  rewrite Hs, Hi. rewrite bool_decide_false by congruence. cbn.
  rewrite bool_decide_false by discriminate. reflexivity.
Qed.

(** What an event in phase does to the refs when it leads to an active
    status: nothing, unless it is the acquisition that starts the streaming. *)
Lemma handle_refs_active (e : Event) (a : Component) :
  offered e a = true -> in_phase e a = true ->
  idle_is_clean a ->
  isSessionActive (handle e a) = true ->
  (isSessionActive a = true
   /\ videoRef (handle e a) = videoRef a
   /\ streamRef (handle e a) = streamRef a)
  \/ (status a = Capturing /\ status (handle e a) = Streaming
      /\ videoRef (handle e a) = videoRef a
      /\ exists i, streamRef (handle e a) = Some i).
Proof.
  intros Hoff Hph Hinv. rewrite !isSessionActive_unfold.
  destruct e; cbn [in_phase] in Hph; try discriminate Hph.
  3: { lazymatch type of Hoff with
       | offered (TrackEnded ?i ?j) _ = _ =>
           destruct (get_track i j a ≫= onended) as [cl|] eqn:Hcl;
           [ rewrite (track_ended_resets a i j cl Hinv Hcl); discriminate
           | cbn [handle]; rewrite Hcl; cbn; intros H; left; auto ]
       end. }
  all: cbn [handle offered] in *; read_offer Hoff; run_handler_env.
  all: try discriminate.
  all: split_tests; simplify_eq/=.
  all: try solve [intros; left; repeat split; congruence].
  all: intros; right; repeat split; eauto.
Qed.

Lemma step_preview_bound (e : Event) (a a' : Component) :
  step e a = Some a' -> in_phase e a = true ->
  idle_is_clean a -> preview_bound a -> preview_bound a'.
Proof.
  intros [Hoff ->]%step_Some Hph Hinv H.
  destruct (isSessionActive (handle e a)) eqn:Hact;
    [|apply commit_inactive, Hact].
  destruct (handle_refs_active e a Hoff Hph Hinv Hact)
    as [(Ha & Hv & Hs) | (Hst & Hst' & Hv & i & Hs)].
  - unfold preview_bound in H. rewrite Ha in H. destruct H as (i & Hi & Hvi).
    apply (commit_bound _ _ i Hact); congruence.
  - unfold preview_bound in H. rewrite isSessionActive_unfold, Hst in H.
    apply (commit_binds _ _ i Hst'); congruence.
Qed.

Lemma run_preview_bound (es : list Event) :
  forall a a',
    run in_phase es a = Some a' ->
    idle_is_clean a -> preview_bound a -> preview_bound a'.
Proof.
  induction es as [|e es IH]; cbn; intros a a' Hrun Hinv H.
  - injection Hrun as <-. exact H.
  - destruct (in_phase e a) eqn:Hph; [|discriminate].
    destruct (step e a) as [a1|] eqn:Hstep; [|discriminate]. cbn in Hrun.
    eapply IH; [exact Hrun| |].
    + eapply step_idle_is_clean; eassumption.
    + eapply step_preview_bound; eassumption.
Qed.

(** In phase, the preview shows the session's stream: whenever the status is
    Streaming, Transcribing or Reviewing a stream is held, it is one the
    environment handed out, and the video element is bound to it with its
    handlers installed; in every other status there is no video element, so
    a snapshot is never taken from an element that shows nothing. *)
Theorem preview_shows_held_stream (es : list Event) (a : Component) :
  run in_phase es initial = Some a ->
  if isSessionActive a
  then exists i,
         streamRef a = Some i /\ i < length (streams a)
         /\ videoRef a
            = Some {| srcObject := Some i; oncanplay := true; onerror := true |}
         /\ forall video, read_video video a = Some video
  else videoRef a = None.
Proof.
  intros Hrun.
  pose proof (run_preview_bound es initial a Hrun initial_idle_is_clean eq_refl)
    as H.
  destruct (run_in_phase_inv es initial a Hrun initial_in_phase_inv)
    as ((_ & _ & _ & _ & Hlt) & _).
  unfold preview_bound in H. destruct (isSessionActive a); [|exact H].
  destruct H as (i & Hi & Hv). exists i.
  split; [exact Hi|]. split; [exact (Hlt i Hi)|]. split; [exact Hv|].
  intros [rs vw vh cw ch]. unfold read_video. rewrite Hv. reflexivity.
Qed.

Lemma preview_shows_held_stream_witness :
  run in_phase (reviewing "A") initial = Some in_review
  /\ isSessionActive in_review = true
  /\ exists i,
       streamRef in_review = Some i /\ i < length (streams in_review)
       /\ videoRef in_review
          = Some {| srcObject := Some i; oncanplay := true; onerror := true |}
       /\ forall video, read_video video in_review = Some video.
Proof.
  pose proof (preview_shows_held_stream _ _ in_review_reached) as H.
  change (isSessionActive in_review) with true in H.
  split; [exact in_review_reached|]. split; [reflexivity | exact H].
Defined.

(** ** Releasing twice *)

(** [stopStream] is idempotent, so the second release in an end of session
    that finds nothing captured changes nothing: such an end is exactly
    Start New Session. *)
Theorem stopStream_idempotent (a : Component) :
  stopStream (stopStream a) = stopStream a
  /\ (forall cl,
        truthy (seen_transcription cl) = false ->
        truthy_opt (seen_lastScreenshot cl) = false ->
        handleEndSession cl a = handleStartNewSession a).
Proof.
  assert (stopStream (stopStream a) = stopStream a) as Hid.
  { destruct a as [h [v s p] en]. unfold stopStream. cbn.
    destruct s as [i|], v as [el|]; reflexivity. }
  split; [exact Hid|].
  intros cl Ht Hl. unfold handleEndSession. rewrite Ht, Hl. cbn [orb].
  unfold handleStartNewSession. rewrite Hid. reflexivity.
Qed.

(** ** No error during a review *)

(** In phase, the transcription and the review run without an error
    message: whatever was shown before is cleared by the snapshot, and nothing
    sets one until the review is over. *)
Theorem no_error_while_reviewing (es : list Event) (a : Component) :
  run in_phase es initial = Some a ->
  status a = Transcribing \/ status a = Reviewing ->
  error a = None.
Proof.
  intros Hrun Hst.
  destruct (run_in_phase_inv es initial a Hrun initial_in_phase_inv)
    as (_ & (_ & H) & _).
  auto.
Qed.

(** A review that follows a failed transcription and a new selection. *)
Lemma no_error_while_reviewing_witness :
  let retry :=
    (selecting ++ [ClickTakeSnapshot frame (Some png);
                   TranscribeSettled 0 (Rejected (new_Error "503"));
                   ClickTakeSnapshot frame (Some png);
                   TranscribeSettled 0 (Resolved (Some "A"))])%list in
  run in_phase retry initial = Some (after retry)
  /\ status (after retry) = Reviewing
  /\ error (after retry) = None.
Proof.
  intros retry.
  assert (run in_phase retry initial = Some (after retry)) as Hrun
    by (vm_compute; reflexivity).
  split; [exact Hrun|]. split; [reflexivity|].
  exact (no_error_while_reviewing retry (after retry) Hrun (or_intror eq_refl)).
Defined.

(** ** The drag *)

Lemma commit_selectionStartPoint (p : Status) (a : Component) :
  selectionStartPoint (commit p a) = selectionStartPoint a.
Proof. unfold commit, attach_stream. repeat case_match; cbn; congruence. Qed.

Lemma mouse_offered (a : Component) :
  isSessionActive a = true ->
  (forall cx cy l t, offered (MouseDown cx cy l t) a = true)
  /\ (forall cx cy l t, offered (MouseMove cx cy l t) a = true)
  /\ offered MouseUp a = true.
Proof.
  intros H. cbn [offered]. rewrite panels_unfold, H.
  rewrite isSessionActive_unfold in H. destruct (status a); try discriminate;
    repeat split.
Qed.

(** Moves during a drag keep the drag going from where it started. *)
Lemma moves_run (between : list (float * float * float * float))
    (start : float * float) :
  forall a : Component,
    isSessionActive a = true -> isSelecting a = true ->
    selectionStartPoint a = Some start ->
    exists a',
      run in_phase (map move between) a = Some a'
      /\ status a' = status a /\ isSelecting a' = true
      /\ selectionStartPoint a' = Some start
      /\ error a' = error a /\ transcription a' = transcription a.
Proof.
  induction between as [|[[[cx cy] l] t] between IH]; intros a Hact Hsel Hstart.
  - exists a. repeat split; assumption.
  - cbn [map move run in_phase].
    rewrite step_offered by (apply mouse_offered, Hact).
    cbn [mbind option_bind].
    set (a1 := commit (status a) (handle (MouseMove cx cy l t) a)).
    assert (hooks a1
            = hooks (handleMouseMove cx cy (Some (l, t)) a)) as Hh
      by apply commit_hooks.
    assert (selectionStartPoint a1 = Some start) as Hs1.
    { unfold a1. rewrite commit_selectionStartPoint. cbn [handle].
      unfold handleMouseMove. rewrite Hsel, Hstart. destruct start. exact Hstart. }
    unfold handleMouseMove in Hh. rewrite Hsel, Hstart in Hh.
    destruct start as [sx0 sy0]. cbn in Hh.
    destruct (IH a1) as (a' & Hrun & Hst & Hsel' & Hstart' & He & Ht).
    { rewrite isSessionActive_unfold in *. rewrite Hh. exact Hact. }
    { rewrite Hh. exact Hsel. }
    { exact Hs1. }
    exists a'. rewrite Hh in Hst, He, Ht. repeat split; assumption.
Qed.

(** A drag depends on its end points only.  A press at one position, any
    moves, a last move to another position and the release leave the
    rectangle spanned by the two positions as the crop area, or none when its
    width or height is below 10; the error is cleared and the status and the
    transcript are as before. *)
Theorem drag_depends_on_end_points (a : Component)
    (cx0 cy0 l0 t0 cx1 cy1 l1 t1 : float)
    (between : list (float * float * float * float)) :
  isSessionActive a = true ->
  let x0 := (cx0 - l0)%float in
  let y0 := (cy0 - t0)%float in
  let x1 := (cx1 - l1)%float in
  let y1 := (cy1 - t1)%float in
  let w := abs (x1 - x0) in
  let h := abs (y1 - y0) in
  exists a',
    run in_phase
      ([MouseDown cx0 cy0 l0 t0] ++ map move between
       ++ [MouseMove cx1 cy1 l1 t1; MouseUp]) a = Some a'
    /\ cropArea a'
       = (if (PrimFloat.ltb w 10 || PrimFloat.ltb h 10)%bool then None
          else Some (Rect.mk (Math_min x0 x1) (Math_min y0 y1) w h))
    /\ isSelecting a' = false
    /\ error a' = None
    /\ status a' = status a
    /\ transcription a' = transcription a.
Proof.
  intros Hact x0 y0 x1 y1 w h.
  cbn [app run in_phase].
  rewrite step_offered by (apply mouse_offered, Hact). cbn [mbind option_bind].
  set (a1 := commit (status a) (handle (MouseDown cx0 cy0 l0 t0) a)).
  assert (hooks a1 = hooks (handleMouseDown cx0 cy0 (Some (l0, t0)) a)) as Hh1
    by apply commit_hooks.
  assert (selectionStartPoint a1 = Some (x0, y0)) as Hs1
    by (unfold a1; rewrite commit_selectionStartPoint; reflexivity).
  cbn in Hh1.
  destruct (moves_run between (x0, y0) a1)
    as (a2 & Hrun & Hst2 & Hsel2 & Hs2 & He2 & Ht2).
  { rewrite isSessionActive_unfold in *. rewrite Hh1. exact Hact. }
  { rewrite Hh1. reflexivity. }
  { exact Hs1. }
  rewrite Hh1 in Hst2, He2, Ht2. cbn in Hst2, He2, Ht2.
  assert (isSessionActive a2 = true) as Hact2.
  { rewrite isSessionActive_unfold in *. rewrite Hst2. exact Hact. }
  rewrite run_app, Hrun. cbn [mbind option_bind run in_phase].
  rewrite step_offered by (apply mouse_offered, Hact2). cbn [mbind option_bind].
  set (a3 := commit (status a2) (handle (MouseMove cx1 cy1 l1 t1) a2)).
  assert (hooks a3 = hooks (handleMouseMove cx1 cy1 (Some (l1, t1)) a2)) as Hh3
    by apply commit_hooks.
  unfold handleMouseMove in Hh3. rewrite Hsel2, Hs2 in Hh3. cbn in Hh3.
  fold x1 y1 w h in Hh3. clearbody a3.
  assert (isSessionActive a3 = true) as Hact3.
  { rewrite isSessionActive_unfold in *. rewrite Hh3. exact Hact2. }
  rewrite step_offered by (apply mouse_offered, Hact3). cbn [mbind option_bind].
  assert (cropArea a3
          = Some (Rect.mk (Math_min x0 x1) (Math_min y0 y1) w h)) as Hc3
    by (rewrite Hh3; reflexivity).
  assert (status a3 = status a /\ error a3 = None
          /\ transcription a3 = transcription a) as (Hst3 & He3 & Ht3)
    by (rewrite Hh3; cbn; auto).
  eexists. split; [reflexivity|].
  rewrite !commit_hooks. cbn [handle]. unfold handleMouseUp.
  rewrite Hc3. cbn [Rect.width Rect.height].
  destruct (PrimFloat.ltb w 10 || PrimFloat.ltb h 10)%bool; cbn;
    repeat split; assumption.
Qed.

(** Dragging up and to the left, with a detour on the way. *)
Lemma drag_depends_on_end_points_witness :
  let streaming := after [ClickStartCapture; DisplayMediaSettled 0 (Resolved 1)] in
  isSessionActive streaming = true
  /\ exists a',
       run in_phase
         ([MouseDown 210 140 100 50]
          ++ map move [(400, 300, 100, 50); (90, 20, 100, 50)]%float
          ++ [MouseMove 110 60 100 50; MouseUp]) streaming = Some a'
       /\ cropArea a' = Some (Rect.mk 10 10 100 80).
Proof.
  intros streaming. split; [reflexivity|].
  destruct (drag_depends_on_end_points streaming 210 140 100 50 110 60 100 50
              [(400, 300, 100, 50); (90, 20, 100, 50)]%float eq_refl)
    as (a' & Hrun & Hcrop & _).
  exists a'. split; [exact Hrun | exact Hcrop].
Defined.

End App.
